(** * ESP32 BLE rotary-encoder keyboard: quadrature decoding, button
      debouncing and connection handling

    A shallow embedding of the single-encoder sketch of
    [ESP32_BLE_EncoderControl.ino], with the properties of its decoder, its
    debouncer, its connection manager and its dispatcher loop.  The
    two-encoder sketch of the same file, which repeats the same functions
    for each encoder with other pins and key codes, is embedded in the
    module [Dual] and related to the first.

    The sketch keeps its state in global variables.  They are gathered in
    the record [Sketch]; each function of the sketch becomes a function
    [Sketch -> Sketch] that takes what the function reads from the outside
    world ([millis()], [digitalRead], [bleKeyboard.isConnected()]) as extra
    arguments.  [Serial.println] and [delay] have no effect on the state
    and are left out. *)

From Stdlib Require Import ZArith List Bool Lia.
Import ListNotations.
Open Scope Z_scope.

(** ** Machine arithmetic of the ESP32-C3 (ILP32) *)

Module Machine.

(** [unsigned long] and [uint32_t]: 32 bits, arithmetic modulo 2^32. *)
Definition u32 (z : Z) : Z := z mod 2 ^ 32.

(** [int]: 32 bits, two's complement; [x++] and [x--] wrap. *)
Definition i32 (z : Z) : Z := (z + 2 ^ 31) mod 2 ^ 32 - 2 ^ 31.

(** [uint8_t]. *)
Definition u8 (z : Z) : Z := z mod 2 ^ 8.

Definition INT_MIN : Z := - 2 ^ 31.
Definition INT_MAX : Z := 2 ^ 31 - 1.

End Machine.
Import Machine.

(** ** Data model *)

(** [enum ConnectionState]. *)
Inductive ConnectionState : Set :=
| DISCONNECTED
| CONNECTING
| CONNECTED.

Definition ConnectionState_eqb (a b : ConnectionState) : bool :=
  match a, b with
  | DISCONNECTED, DISCONNECTED => true
  | CONNECTING, CONNECTING => true
  | CONNECTED, CONNECTED => true
  | _, _ => false
  end.

(** [enum ButtonState]. *)
Inductive ButtonState : Set :=
| BUTTON_UP
| BUTTON_DEBOUNCING_DOWN
| BUTTON_DOWN
| BUTTON_DEBOUNCING_UP.

(** The key codes of [BleKeyboard.h] that the sketch passes to
    [bleKeyboard.write]. *)
Inductive KeyCode : Set :=
| KEY_RIGHT_ARROW
| KEY_LEFT_ARROW
| KEY_RETURN.

(** FastLED's [CRGB]. *)
Record CRGB : Set := mkCRGB { red : Z; green : Z; blue : Z }.

Definition colorDisconnected : CRGB := mkCRGB 50 0 0.
Definition colorConnecting : CRGB := mkCRGB 50 20 0.
Definition colorConnected : CRGB := mkCRGB 0 50 0.
Definition colorActivity : CRGB := mkCRGB 0 0 50.
Definition Black : CRGB := mkCRGB 0 0 0.

Definition RECONNECT_DELAY : Z := 5000.
Definition encoderDebounceTime : Z := 5.
Definition buttonDebounceTime : Z := 50.

(** Pin levels are booleans: [HIGH] is [true], [LOW] is [false]. *)
Definition HIGH : bool := true.
Definition LOW : bool := false.

(** The global variables of the sketch, with [old_AB] (the function-local
    [static] of [encoderISR]) and [leds[0]].  [hid] is the link as seen
    from outside: the keys passed to [bleKeyboard.write], oldest first;
    each entry also records the value [connectionState] had at the moment
    of the call, which the sketch does not store (a ghost component, read
    by no function of the model). *)
Record Sketch : Set := mkSketch {
  connectionState : ConnectionState;
  lastConnectionAttempt : Z;
  wasConnected : bool;
  encoderPos : Z;
  lastReportedPos : Z;
  lastEncoderEvent : Z;
  old_AB : Z;
  buttonState : ButtonState;
  buttonStateChangeTime : Z;
  buttonEventProcessed : bool;
  led : CRGB;
  hid : list (KeyCode * ConnectionState)
}.

(** Assignments to one global variable. *)
Definition set_connectionState (v : ConnectionState) (s : Sketch) : Sketch :=
  mkSketch v (lastConnectionAttempt s) (wasConnected s) (encoderPos s)
    (lastReportedPos s) (lastEncoderEvent s) (old_AB s) (buttonState s)
    (buttonStateChangeTime s) (buttonEventProcessed s) (led s) (hid s).

Definition set_lastConnectionAttempt (v : Z) (s : Sketch) : Sketch :=
  mkSketch (connectionState s) v (wasConnected s) (encoderPos s)
    (lastReportedPos s) (lastEncoderEvent s) (old_AB s) (buttonState s)
    (buttonStateChangeTime s) (buttonEventProcessed s) (led s) (hid s).

Definition set_wasConnected (v : bool) (s : Sketch) : Sketch :=
  mkSketch (connectionState s) (lastConnectionAttempt s) v (encoderPos s)
    (lastReportedPos s) (lastEncoderEvent s) (old_AB s) (buttonState s)
    (buttonStateChangeTime s) (buttonEventProcessed s) (led s) (hid s).

Definition set_encoderPos (v : Z) (s : Sketch) : Sketch :=
  mkSketch (connectionState s) (lastConnectionAttempt s) (wasConnected s) v
    (lastReportedPos s) (lastEncoderEvent s) (old_AB s) (buttonState s)
    (buttonStateChangeTime s) (buttonEventProcessed s) (led s) (hid s).

Definition set_lastReportedPos (v : Z) (s : Sketch) : Sketch :=
  mkSketch (connectionState s) (lastConnectionAttempt s) (wasConnected s)
    (encoderPos s) v (lastEncoderEvent s) (old_AB s) (buttonState s)
    (buttonStateChangeTime s) (buttonEventProcessed s) (led s) (hid s).

Definition set_lastEncoderEvent (v : Z) (s : Sketch) : Sketch :=
  mkSketch (connectionState s) (lastConnectionAttempt s) (wasConnected s)
    (encoderPos s) (lastReportedPos s) v (old_AB s) (buttonState s)
    (buttonStateChangeTime s) (buttonEventProcessed s) (led s) (hid s).

Definition set_old_AB (v : Z) (s : Sketch) : Sketch :=
  mkSketch (connectionState s) (lastConnectionAttempt s) (wasConnected s)
    (encoderPos s) (lastReportedPos s) (lastEncoderEvent s) v (buttonState s)
    (buttonStateChangeTime s) (buttonEventProcessed s) (led s) (hid s).

Definition set_buttonState (v : ButtonState) (s : Sketch) : Sketch :=
  mkSketch (connectionState s) (lastConnectionAttempt s) (wasConnected s)
    (encoderPos s) (lastReportedPos s) (lastEncoderEvent s) (old_AB s) v
    (buttonStateChangeTime s) (buttonEventProcessed s) (led s) (hid s).

Definition set_buttonStateChangeTime (v : Z) (s : Sketch) : Sketch :=
  mkSketch (connectionState s) (lastConnectionAttempt s) (wasConnected s)
    (encoderPos s) (lastReportedPos s) (lastEncoderEvent s) (old_AB s)
    (buttonState s) v (buttonEventProcessed s) (led s) (hid s).

Definition set_buttonEventProcessed (v : bool) (s : Sketch) : Sketch :=
  mkSketch (connectionState s) (lastConnectionAttempt s) (wasConnected s)
    (encoderPos s) (lastReportedPos s) (lastEncoderEvent s) (old_AB s)
    (buttonState s) (buttonStateChangeTime s) v (led s) (hid s).

Definition set_led (v : CRGB) (s : Sketch) : Sketch :=
  mkSketch (connectionState s) (lastConnectionAttempt s) (wasConnected s)
    (encoderPos s) (lastReportedPos s) (lastEncoderEvent s) (old_AB s)
    (buttonState s) (buttonStateChangeTime s) (buttonEventProcessed s) v
    (hid s).

(** [bleKeyboard.write(k)]. *)
Definition write (k : KeyCode) (s : Sketch) : Sketch :=
  mkSketch (connectionState s) (lastConnectionAttempt s) (wasConnected s)
    (encoderPos s) (lastReportedPos s) (lastEncoderEvent s) (old_AB s)
    (buttonState s) (buttonStateChangeTime s) (buttonEventProcessed s)
    (led s) (hid s ++ [(k, connectionState s)]).

(** The keys sent so far. *)
Definition keys_sent (s : Sketch) : list KeyCode := map fst (hid s).

(** The initialisers of the global variables. *)
Definition power_on : Sketch :=
  {| connectionState := DISCONNECTED;
     lastConnectionAttempt := 0;
     wasConnected := false;
     encoderPos := 0;
     lastReportedPos := 0;
     lastEncoderEvent := 0;
     old_AB := 0;
     buttonState := BUTTON_UP;
     buttonStateChangeTime := 0;
     buttonEventProcessed := true;
     led := mkCRGB 0 0 0;
     hid := [] |}.

(** ** The interrupt handlers *)

(** [current_AB = (pinA << 1) | pinB]. *)
Definition pin_pair (pinA pinB : bool) : Z :=
  u8 (Z.lor (Z.shiftl (Z.b2z pinA) 1) (Z.b2z pinB)).

(** The first condition of [encoderISR]. *)
Definition is_clockwise (old cur : Z) : bool :=
  ((old =? 0) && (cur =? 1)) || ((old =? 1) && (cur =? 3)) ||
  ((old =? 3) && (cur =? 2)) || ((old =? 2) && (cur =? 0)).

(** The second condition of [encoderISR]. *)
Definition is_counter_clockwise (old cur : Z) : bool :=
  ((old =? 0) && (cur =? 2)) || ((old =? 2) && (cur =? 3)) ||
  ((old =? 3) && (cur =? 1)) || ((old =? 1) && (cur =? 0)).

(** [encoderISR]: [pinA] and [pinB] are the levels read on CLK and DT,
    [now] the value of [millis()]. *)
Definition encoderISR (pinA pinB : bool) (now : Z) (s : Sketch) : Sketch :=
  if u32 (now - lastEncoderEvent s) <? encoderDebounceTime then s
  else
    let current_AB := pin_pair pinA pinB in
    let s1 :=
      if is_clockwise (old_AB s) current_AB then
        set_lastEncoderEvent now (set_encoderPos (i32 (encoderPos s + 1)) s)
      else if is_counter_clockwise (old_AB s) current_AB then
        set_lastEncoderEvent now (set_encoderPos (i32 (encoderPos s - 1)) s)
      else s in
    set_old_AB current_AB s1.

(** [buttonISR]: [sw] is the level read on the button pin (read only in
    the [BUTTON_UP] and [BUTTON_DOWN] cases), [now] the value of
    [millis()]. *)
Definition buttonISR (sw : bool) (now : Z) (s : Sketch) : Sketch :=
  match buttonState s with
  | BUTTON_UP =>
      if Bool.eqb sw LOW then
        set_buttonStateChangeTime now (set_buttonState BUTTON_DEBOUNCING_DOWN s)
      else s
  | BUTTON_DEBOUNCING_DOWN => s
  | BUTTON_DOWN =>
      if Bool.eqb sw HIGH then
        set_buttonStateChangeTime now (set_buttonState BUTTON_DEBOUNCING_UP s)
      else s
  | BUTTON_DEBOUNCING_UP => s
  end.

(** ** The cooperative loop *)

(** [setup]: only its effects on the global variables. *)
Definition setup (now : Z) (s : Sketch) : Sketch :=
  set_lastConnectionAttempt now
    (set_connectionState CONNECTING (set_led colorDisconnected s)).

(** [updateConnectionState]: [isConnected] is the answer of
    [bleKeyboard.isConnected()]; the function reads [millis()] in two
    places, [t_disc] on the disconnection branch and [t_retry] in the
    reconnection test. *)
Definition updateConnectionState (isConnected : bool) (t_disc t_retry : Z)
    (s : Sketch) : Sketch :=
  let s1 :=
    if isConnected && negb (wasConnected s) then
      set_wasConnected true (set_connectionState CONNECTED s)
    else if negb isConnected && wasConnected s then
      set_lastConnectionAttempt t_disc
        (set_wasConnected false (set_connectionState DISCONNECTED s))
    else s in
  match connectionState s1 with
  | DISCONNECTED =>
      if RECONNECT_DELAY <? u32 (t_retry - lastConnectionAttempt s1) then
        set_lastConnectionAttempt t_retry (set_connectionState CONNECTING s1)
      else s1
  | CONNECTING =>
      if isConnected then set_connectionState CONNECTED s1 else s1
  | CONNECTED => s1
  end.

(** [updateLED]. *)
Definition updateLED (now : Z) (s : Sketch) : Sketch :=
  match connectionState s with
  | DISCONNECTED => set_led colorDisconnected s
  | CONNECTING =>
      if (now / 500) mod 2 =? 0 then set_led colorConnecting s
      else set_led Black s
  | CONNECTED => set_led colorConnected s
  end.

(** [handleEncoderChange]. *)
Definition handleEncoderChange (s : Sketch) : Sketch :=
  if negb (encoderPos s =? lastReportedPos s) then
    let s1 := set_led colorActivity s in
    let s2 :=
      if lastReportedPos s1 <? encoderPos s1 then write KEY_RIGHT_ARROW s1
      else write KEY_LEFT_ARROW s1 in
    let s3 := set_lastReportedPos (encoderPos s2) s2 in
    set_led colorConnected s3
  else s.

(** [handleButtonEvent]: [sw] is the level read on the button pin (read
    only once the debounce time has elapsed), [now] the value of
    [millis()]. *)
Definition handleButtonEvent (sw : bool) (now : Z) (s : Sketch) : Sketch :=
  match buttonState s with
  | BUTTON_DEBOUNCING_DOWN =>
      if buttonDebounceTime <? u32 (now - buttonStateChangeTime s) then
        if Bool.eqb sw LOW then
          set_buttonEventProcessed false (set_buttonState BUTTON_DOWN s)
        else set_buttonState BUTTON_UP s
      else s
  | BUTTON_DEBOUNCING_UP =>
      if buttonDebounceTime <? u32 (now - buttonStateChangeTime s) then
        if Bool.eqb sw HIGH then set_buttonState BUTTON_UP s
        else set_buttonState BUTTON_DOWN s
      else s
  | BUTTON_DOWN =>
      if ConnectionState_eqb (connectionState s) CONNECTED
         && negb (buttonEventProcessed s) then
        let s1 := set_led colorActivity s in
        let s2 := write KEY_RETURN s1 in
        let s3 := set_buttonEventProcessed true s2 in
        set_led colorConnected s3
      else s
  | BUTTON_UP => s
  end.

(** The statements of [loop], one action each, and the two interrupt
    handlers, which may run between any two of them.  A handler runs to
    completion; an interrupt taken in the middle of a statement of [loop]
    is not modelled. *)
Inductive Action : Set :=
| IsrEncoder (pinA pinB : bool) (now : Z)
| IsrButton (sw : bool) (now : Z)
| LoopConnection (isConnected : bool) (t_disc t_retry : Z)
| LoopLed (now : Z)
| LoopEncoder
| LoopButton (sw : bool) (now : Z).

Definition step (a : Action) (s : Sketch) : Sketch :=
  match a with
  | IsrEncoder pinA pinB now => encoderISR pinA pinB now s
  | IsrButton sw now => buttonISR sw now s
  | LoopConnection isConnected t_disc t_retry =>
      updateConnectionState isConnected t_disc t_retry s
  | LoopLed now => updateLED now s
  | LoopEncoder =>
      if ConnectionState_eqb (connectionState s) CONNECTED then
        handleEncoderChange s
      else s
  | LoopButton sw now => handleButtonEvent sw now s
  end.

Fixpoint run (acts : list Action) (s : Sketch) : Sketch :=
  match acts with
  | [] => s
  | a :: rest => run rest (step a s)
  end.

(** What one iteration of [loop] reads from the outside world. *)
Record LoopIn : Set := mkLoopIn {
  link : bool;
  conn_t_disc : Z;
  conn_t_retry : Z;
  led_now : Z;
  button_sw : bool;
  button_now : Z
}.

(** One iteration of [loop], as the list of its statements. *)
Definition tick (i : LoopIn) : list Action :=
  [ LoopConnection (link i) (conn_t_disc i) (conn_t_retry i);
    LoopLed (led_now i);
    LoopEncoder;
    LoopButton (button_sw i) (button_now i) ].

(** [loop]. *)
Definition loop (i : LoopIn) (s : Sketch) : Sketch :=
  let s1 := updateConnectionState (link i) (conn_t_disc i) (conn_t_retry i) s in
  let s2 := updateLED (led_now i) s1 in
  let s3 :=
    if ConnectionState_eqb (connectionState s2) CONNECTED then
      handleEncoderChange s2
    else s2 in
  handleButtonEvent (button_sw i) (button_now i) s3.

(** An iteration at one instant [now], with the link up or down and the
    button pin at level [sw]. *)
Definition tick_at (isConnected sw : bool) (now : Z) : LoopIn :=
  mkLoopIn isConnected now now now sw now.

(** ** Vocabulary of the properties *)

(** *** Quadrature *)

(** A sample of the two encoder pins, (A, B). *)
Definition PinPair : Set := (bool * bool)%type.

Definition PinPair_eqb (p q : PinPair) : bool :=
  Bool.eqb (fst p) (fst q) && Bool.eqb (snd p) (snd q).

(** The 2-bit value of a sample, as the decoder stores it. *)
Definition code (p : PinPair) : Z := pin_pair (fst p) (snd p).

(** The clockwise cycle 00 -> 01 -> 11 -> 10 -> 00. *)
Definition gray_cw (p : PinPair) : PinPair :=
  match p with
  | (false, false) => (false, true)
  | (false, true) => (true, true)
  | (true, true) => (true, false)
  | (true, false) => (false, false)
  end.

(** [q] follows [p] on the clockwise cycle. *)
Definition clockwise (p q : PinPair) : bool := PinPair_eqb (gray_cw p) q.

(** Counter-clockwise is the reverse cycle. *)
Definition counter_clockwise (p q : PinPair) : bool := PinPair_eqb (gray_cw q) p.

(** A legal transition matches one of the two adjacencies; any other one
    is an illegal jump. *)
Definition adjacent (p q : PinPair) : bool :=
  clockwise p q || counter_clockwise p q.

(** One invocation of [encoderISR]: the pin pair it samples and the
    reading of [millis()]. *)
Record Edge : Set := mkEdge { pins : PinPair; at_ms : Z }.

Definition edge_action (e : Edge) : Action :=
  IsrEncoder (fst (pins e)) (snd (pins e)) (at_ms e).

Definition replay (es : list Edge) : list Action := map edge_action es.

(** Every transition of the sequence is legal, the first one from [p]. *)
Fixpoint legal_from (p : PinPair) (es : list Edge) : Prop :=
  match es with
  | [] => True
  | e :: rest => adjacent p (pins e) = true /\ legal_from (pins e) rest
  end.

Fixpoint count_clockwise (p : PinPair) (es : list Edge) : Z :=
  match es with
  | [] => 0
  | e :: rest =>
      (if clockwise p (pins e) then 1 else 0) + count_clockwise (pins e) rest
  end.

Fixpoint count_counter_clockwise (p : PinPair) (es : list Edge) : Z :=
  match es with
  | [] => 0
  | e :: rest =>
      (if counter_clockwise p (pins e) then 1 else 0)
      + count_counter_clockwise (pins e) rest
  end.

(** Every invocation comes at least [encoderDebounceTime] after the one
    before it, the first one after [last]. *)
Fixpoint spaced (last : Z) (es : list Edge) : Prop :=
  match es with
  | [] => True
  | e :: rest =>
      encoderDebounceTime <= u32 (at_ms e - last) /\ spaced (at_ms e) rest
  end.

(** The decoder as the initialisers leave it. *)
Definition fresh_decoder (s : Sketch) : Prop :=
  encoderPos s = 0 /\ lastEncoderEvent s = 0 /\ old_AB s = 0.

(** Clockwise transitions from [p], one at each of the times [ts]. *)
Fixpoint clockwise_turns (p : PinPair) (ts : list Z) : list Edge :=
  match ts with
  | [] => []
  | t :: rest => mkEdge (gray_cw p) t :: clockwise_turns (gray_cw p) rest
  end.

(** What an illegal jump to [q] at [now] leaves of the state [s]. *)
Definition after_jump (q : PinPair) (now : Z) (s : Sketch) : Sketch :=
  if u32 (now - lastEncoderEvent s) <? encoderDebounceTime then s
  else set_old_AB (code q) s.

(** *** Keys *)

Definition KeyCode_eq_dec (a b : KeyCode) : {a = b} + {a <> b}.
Proof. decide equality. Defined.

(** How many times the key [k] has been sent. *)
Definition count_key (k : KeyCode) (s : Sketch) : nat :=
  count_occ KeyCode_eq_dec (keys_sent s) k.

(** Every key was written while [connectionState] was [CONNECTED]. *)
Definition gated (s : Sketch) : Prop :=
  Forall (fun e => snd e = CONNECTED) (hid s).

(** *** Button cycle *)

Definition next_stage (b : ButtonState) : ButtonState :=
  match b with
  | BUTTON_UP => BUTTON_DEBOUNCING_DOWN
  | BUTTON_DEBOUNCING_DOWN => BUTTON_DOWN
  | BUTTON_DOWN => BUTTON_DEBOUNCING_UP
  | BUTTON_DEBOUNCING_UP => BUTTON_UP
  end.

Definition ButtonState_eqb (a b : ButtonState) : bool :=
  match a, b with
  | BUTTON_UP, BUTTON_UP => true
  | BUTTON_DEBOUNCING_DOWN, BUTTON_DEBOUNCING_DOWN => true
  | BUTTON_DOWN, BUTTON_DOWN => true
  | BUTTON_DEBOUNCING_UP, BUTTON_DEBOUNCING_UP => true
  | _, _ => false
  end.

(** The action [a], run in state [s], confirms a press: the button goes
    from [BUTTON_DEBOUNCING_DOWN] to [BUTTON_DOWN]. *)
Definition confirms_down (a : Action) (s : Sketch) : bool :=
  ButtonState_eqb (buttonState s) BUTTON_DEBOUNCING_DOWN
  && ButtonState_eqb (buttonState (step a s)) BUTTON_DOWN.

(** The number of press confirmations when [acts] run from [s]. *)
Fixpoint confirmations (acts : list Action) (s : Sketch) : nat :=
  match acts with
  | [] => O
  | a :: rest =>
      ((if confirms_down a s then 1 else 0) + confirmations rest (step a s))%nat
  end.

(** The action [a] is the button statement of [loop], and it finds the
    button [BUTTON_DOWN] and the connection [CONNECTED]. *)
Definition finds_down_connected (a : Action) (s : Sketch) : bool :=
  match a with
  | LoopButton _ _ =>
      ButtonState_eqb (buttonState s) BUTTON_DOWN
      && ConnectionState_eqb (connectionState s) CONNECTED
  | _ => false
  end.

(** The number of such statements when [acts] run from [s]. *)
Fixpoint down_while_connected (acts : list Action) (s : Sketch) : nat :=
  match acts with
  | [] => O
  | a :: rest =>
      ((if finds_down_connected a s then 1 else 0)
       + down_while_connected rest (step a s))%nat
  end.

(** A confirmed press whose key has not been sent yet. *)
Definition pending (s : Sketch) : nat :=
  match buttonState s with
  | BUTTON_DOWN | BUTTON_DEBOUNCING_UP =>
      if buttonEventProcessed s then 0%nat else 1%nat
  | _ => 0%nat
  end.

(** *** Connection *)

(** The states the sketch can be in: [setup], then any interleaving of
    the statements of [loop] and of the interrupt handlers. *)
Definition reachable (s : Sketch) : Prop :=
  exists (t : Z) (acts : list Action), s = run acts (setup t power_on).

(** The link reports linked whenever [a] asks. *)
Definition link_up (a : Action) : Prop :=
  match a with
  | LoopConnection isConnected _ _ => isConnected = true
  | _ => True
  end.

(** The link reports unlinked whenever [a] asks, and [a] asks no later
    than [RECONNECT_DELAY] after [t0]. *)
Definition waits_for_retry (t0 : Z) (a : Action) : Prop :=
  match a with
  | LoopConnection isConnected _ t_retry =>
      isConnected = false /\ u32 (t_retry - t0) <= RECONNECT_DELAY
  | _ => True
  end.

(** The [Right] and [Left] keys sent so far. *)
Definition arrows (s : Sketch) : nat * nat :=
  (count_key KEY_RIGHT_ARROW s, count_key KEY_LEFT_ARROW s).

(** The button has not been confirmed down. *)
Definition before_down (s : Sketch) : bool :=
  match buttonState s with
  | BUTTON_UP | BUTTON_DEBOUNCING_DOWN => true
  | _ => false
  end.

(** ** Scenarios *)

(** Power-on, [setup] at time 0 and a first iteration of [loop] at 1 ms
    with the link up: connected and idle. *)
Definition connected_idle : Sketch :=
  run (tick (tick_at true HIGH 1)) (setup 0 power_on).

(** The button goes active at 100 ms; the iteration of [loop] at 146 ms
    is too early to re-sample it, the one at 151 ms confirms the press. *)
Definition press_confirmed : list Action :=
  [IsrButton LOW 100]
  ++ tick (tick_at true LOW 146) ++ tick (tick_at true LOW 151).

(** The button is released at 152 ms, before the next iteration of
    [loop]; the release is confirmed at 206 ms. *)
Definition short_press : list Action :=
  press_confirmed
  ++ [IsrButton HIGH 152]
  ++ tick (tick_at true HIGH 156) ++ tick (tick_at true HIGH 201)
  ++ tick (tick_at true HIGH 206).

(** The button is released at 300 ms instead. *)
Definition long_press : list Action :=
  press_confirmed
  ++ tick (tick_at true LOW 156) ++ tick (tick_at true LOW 161)
  ++ [IsrButton HIGH 300]
  ++ tick (tick_at true HIGH 301) ++ tick (tick_at true HIGH 351).

(** An illegal jump from 00 to 11, 10 ms after power-on. *)
Definition jump_00_11 : Edge := mkEdge (true, true) 10.

(** A legal clockwise transition from 00 to 01, 20 ms after power-on. *)
Definition turn_00_01 : Edge := mkEdge (false, true) 20.

(** ** Further vocabulary *)

(** The decoder variables hold what their C types can: a pin pair and two
    [int]s. *)
Definition decoder_in_range (s : Sketch) : Prop :=
  0 <= old_AB s <= 3 /\
  INT_MIN <= encoderPos s <= INT_MAX /\
  INT_MIN <= lastReportedPos s <= INT_MAX.

(** The link reports unlinked whenever [a] asks. *)
Definition link_down (a : Action) : Prop :=
  match a with
  | LoopConnection isConnected _ _ => isConnected = false
  | _ => True
  end.

(** The button pin reads inactive whenever the interrupt [a] samples it. *)
Definition button_released (a : Action) : Prop :=
  match a with
  | IsrButton sw _ => sw = HIGH
  | _ => True
  end.

(** The button pin reads active whenever the interrupt [a] samples it. *)
Definition button_held (a : Action) : Prop :=
  match a with
  | IsrButton sw _ => sw = LOW
  | _ => True
  end.

(** [a] is not the button statement of [loop]. *)
Definition not_button_statement (a : Action) : Prop :=
  match a with
  | LoopButton _ _ => False
  | _ => True
  end.

(** The colour [updateLED] shows for a connection state at time [now]. *)
Definition status_color (c : ConnectionState) (now : Z) : CRGB :=
  match c with
  | DISCONNECTED => colorDisconnected
  | CONNECTING => if (now / 500) mod 2 =? 0 then colorConnecting else Black
  | CONNECTED => colorConnected
  end.

(** ** The two-encoder sketch

    The second sketch of the file: two encoders with their buttons, one
    connection manager, one LED.  The enumerations, the colours and the
    constants are those of the first sketch. *)

Module Dual.

(** The key codes this sketch passes to [bleKeyboard.write]. *)
Inductive KeyCode : Set :=
| KEY_RIGHT_ARROW
| KEY_LEFT_ARROW
| KEY_UP_ARROW
| KEY_DOWN_ARROW
| KEY_RETURN
| KEY_LEFT_GUI.

(** [struct EncoderState]. *)
Record EncoderState : Set := mkEncoderState {
  position : Z;
  lastReportedPosition : Z;
  lastEvent : Z;
  buttonState : ButtonState;
  buttonStateChangeTime : Z;
  buttonEventProcessed : bool
}.

Definition set_position (v : Z) (e : EncoderState) : EncoderState :=
  mkEncoderState v (lastReportedPosition e) (lastEvent e) (buttonState e)
    (buttonStateChangeTime e) (buttonEventProcessed e).

Definition set_lastReportedPosition (v : Z) (e : EncoderState) : EncoderState :=
  mkEncoderState (position e) v (lastEvent e) (buttonState e)
    (buttonStateChangeTime e) (buttonEventProcessed e).

Definition set_lastEvent (v : Z) (e : EncoderState) : EncoderState :=
  mkEncoderState (position e) (lastReportedPosition e) v (buttonState e)
    (buttonStateChangeTime e) (buttonEventProcessed e).

Definition set_buttonState (v : ButtonState) (e : EncoderState) : EncoderState :=
  mkEncoderState (position e) (lastReportedPosition e) (lastEvent e) v
    (buttonStateChangeTime e) (buttonEventProcessed e).

Definition set_buttonStateChangeTime (v : Z) (e : EncoderState) : EncoderState :=
  mkEncoderState (position e) (lastReportedPosition e) (lastEvent e)
    (buttonState e) v (buttonEventProcessed e).

Definition set_buttonEventProcessed (v : bool) (e : EncoderState) : EncoderState :=
  mkEncoderState (position e) (lastReportedPosition e) (lastEvent e)
    (buttonState e) (buttonStateChangeTime e) v.

(** The global variables of the sketch; [old_AB1] and [old_AB2] are the
    function-local [static old_AB] of [encoder1ISR] and [encoder2ISR].
    [hid] is as in the first sketch. *)
Record Sketch : Set := mkSketch {
  connectionState : ConnectionState;
  lastConnectionAttempt : Z;
  wasConnected : bool;
  encoder1 : EncoderState;
  encoder2 : EncoderState;
  old_AB1 : Z;
  old_AB2 : Z;
  led : CRGB;
  hid : list (KeyCode * ConnectionState)
}.

Definition set_connectionState (v : ConnectionState) (d : Sketch) : Sketch :=
  mkSketch v (lastConnectionAttempt d) (wasConnected d) (encoder1 d)
    (encoder2 d) (old_AB1 d) (old_AB2 d) (led d) (hid d).

Definition set_lastConnectionAttempt (v : Z) (d : Sketch) : Sketch :=
  mkSketch (connectionState d) v (wasConnected d) (encoder1 d)
    (encoder2 d) (old_AB1 d) (old_AB2 d) (led d) (hid d).

Definition set_wasConnected (v : bool) (d : Sketch) : Sketch :=
  mkSketch (connectionState d) (lastConnectionAttempt d) v (encoder1 d)
    (encoder2 d) (old_AB1 d) (old_AB2 d) (led d) (hid d).

Definition set_encoder1 (v : EncoderState) (d : Sketch) : Sketch :=
  mkSketch (connectionState d) (lastConnectionAttempt d) (wasConnected d) v
    (encoder2 d) (old_AB1 d) (old_AB2 d) (led d) (hid d).

Definition set_encoder2 (v : EncoderState) (d : Sketch) : Sketch :=
  mkSketch (connectionState d) (lastConnectionAttempt d) (wasConnected d)
    (encoder1 d) v (old_AB1 d) (old_AB2 d) (led d) (hid d).

Definition set_old_AB1 (v : Z) (d : Sketch) : Sketch :=
  mkSketch (connectionState d) (lastConnectionAttempt d) (wasConnected d)
    (encoder1 d) (encoder2 d) v (old_AB2 d) (led d) (hid d).

Definition set_old_AB2 (v : Z) (d : Sketch) : Sketch :=
  mkSketch (connectionState d) (lastConnectionAttempt d) (wasConnected d)
    (encoder1 d) (encoder2 d) (old_AB1 d) v (led d) (hid d).

Definition set_led (v : CRGB) (d : Sketch) : Sketch :=
  mkSketch (connectionState d) (lastConnectionAttempt d) (wasConnected d)
    (encoder1 d) (encoder2 d) (old_AB1 d) (old_AB2 d) v (hid d).

(** [bleKeyboard.write(k)]. *)
Definition write (k : KeyCode) (d : Sketch) : Sketch :=
  mkSketch (connectionState d) (lastConnectionAttempt d) (wasConnected d)
    (encoder1 d) (encoder2 d) (old_AB1 d) (old_AB2 d) (led d)
    (hid d ++ [(k, connectionState d)]).

Definition keys_sent (d : Sketch) : list KeyCode := map fst (hid d).

(** The initialisers of the global variables. *)
Definition power_on : Sketch :=
  {| connectionState := DISCONNECTED;
     lastConnectionAttempt := 0;
     wasConnected := false;
     encoder1 := mkEncoderState 0 0 0 BUTTON_UP 0 true;
     encoder2 := mkEncoderState 0 0 0 BUTTON_UP 0 true;
     old_AB1 := 0;
     old_AB2 := 0;
     led := mkCRGB 0 0 0;
     hid := [] |}.

(** [encoder1ISR]. *)
Definition encoder1ISR (pinA pinB : bool) (now : Z) (d : Sketch) : Sketch :=
  if u32 (now - lastEvent (encoder1 d)) <? encoderDebounceTime then d
  else
    let current_AB := pin_pair pinA pinB in
    let d1 :=
      if is_clockwise (old_AB1 d) current_AB then
        set_encoder1
          (set_lastEvent now
             (set_position (i32 (position (encoder1 d) + 1)) (encoder1 d))) d
      else if is_counter_clockwise (old_AB1 d) current_AB then
        set_encoder1
          (set_lastEvent now
             (set_position (i32 (position (encoder1 d) - 1)) (encoder1 d))) d
      else d in
    set_old_AB1 current_AB d1.

(** [encoder2ISR]. *)
Definition encoder2ISR (pinA pinB : bool) (now : Z) (d : Sketch) : Sketch :=
  if u32 (now - lastEvent (encoder2 d)) <? encoderDebounceTime then d
  else
    let current_AB := pin_pair pinA pinB in
    let d1 :=
      if is_clockwise (old_AB2 d) current_AB then
        set_encoder2
          (set_lastEvent now
             (set_position (i32 (position (encoder2 d) + 1)) (encoder2 d))) d
      else if is_counter_clockwise (old_AB2 d) current_AB then
        set_encoder2
          (set_lastEvent now
             (set_position (i32 (position (encoder2 d) - 1)) (encoder2 d))) d
      else d in
    set_old_AB2 current_AB d1.

(** [button1ISR]. *)
Definition button1ISR (sw : bool) (now : Z) (d : Sketch) : Sketch :=
  match buttonState (encoder1 d) with
  | BUTTON_UP =>
      if Bool.eqb sw LOW then
        set_encoder1
          (set_buttonStateChangeTime now
             (set_buttonState BUTTON_DEBOUNCING_DOWN (encoder1 d))) d
      else d
  | BUTTON_DEBOUNCING_DOWN => d
  | BUTTON_DOWN =>
      if Bool.eqb sw HIGH then
        set_encoder1
          (set_buttonStateChangeTime now
             (set_buttonState BUTTON_DEBOUNCING_UP (encoder1 d))) d
      else d
  | BUTTON_DEBOUNCING_UP => d
  end.

(** [button2ISR]. *)
Definition button2ISR (sw : bool) (now : Z) (d : Sketch) : Sketch :=
  match buttonState (encoder2 d) with
  | BUTTON_UP =>
      if Bool.eqb sw LOW then
        set_encoder2
          (set_buttonStateChangeTime now
             (set_buttonState BUTTON_DEBOUNCING_DOWN (encoder2 d))) d
      else d
  | BUTTON_DEBOUNCING_DOWN => d
  | BUTTON_DOWN =>
      if Bool.eqb sw HIGH then
        set_encoder2
          (set_buttonStateChangeTime now
             (set_buttonState BUTTON_DEBOUNCING_UP (encoder2 d))) d
      else d
  | BUTTON_DEBOUNCING_UP => d
  end.

(** [setup]: only its effects on the global variables. *)
Definition setup (now : Z) (d : Sketch) : Sketch :=
  set_lastConnectionAttempt now
    (set_connectionState CONNECTING (set_led colorDisconnected d)).

(** [updateConnectionState]. *)
Definition updateConnectionState (isConnected : bool) (t_disc t_retry : Z)
    (d : Sketch) : Sketch :=
  let d1 :=
    if isConnected && negb (wasConnected d) then
      set_wasConnected true (set_connectionState CONNECTED d)
    else if negb isConnected && wasConnected d then
      set_lastConnectionAttempt t_disc
        (set_wasConnected false (set_connectionState DISCONNECTED d))
    else d in
  match connectionState d1 with
  | DISCONNECTED =>
      if RECONNECT_DELAY <? u32 (t_retry - lastConnectionAttempt d1) then
        set_lastConnectionAttempt t_retry (set_connectionState CONNECTING d1)
      else d1
  | CONNECTING =>
      if isConnected then set_connectionState CONNECTED d1 else d1
  | CONNECTED => d1
  end.

(** [updateLED]. *)
Definition updateLED (now : Z) (d : Sketch) : Sketch :=
  match connectionState d with
  | DISCONNECTED => set_led colorDisconnected d
  | CONNECTING =>
      if (now / 500) mod 2 =? 0 then set_led colorConnecting d
      else set_led Black d
  | CONNECTED => set_led colorConnected d
  end.

(** [handleEncoder1Change]. *)
Definition handleEncoder1Change (d : Sketch) : Sketch :=
  if negb (position (encoder1 d) =? lastReportedPosition (encoder1 d)) then
    let d1 := set_led colorActivity d in
    let d2 :=
      if lastReportedPosition (encoder1 d1) <? position (encoder1 d1)
      then write KEY_RIGHT_ARROW d1
      else write KEY_LEFT_ARROW d1 in
    let d3 :=
      set_encoder1
        (set_lastReportedPosition (position (encoder1 d2)) (encoder1 d2)) d2 in
    set_led colorConnected d3
  else d.

(** [handleEncoder2Change]. *)
Definition handleEncoder2Change (d : Sketch) : Sketch :=
  if negb (position (encoder2 d) =? lastReportedPosition (encoder2 d)) then
    let d1 := set_led colorActivity d in
    let d2 :=
      if lastReportedPosition (encoder2 d1) <? position (encoder2 d1)
      then write KEY_UP_ARROW d1
      else write KEY_DOWN_ARROW d1 in
    let d3 :=
      set_encoder2
        (set_lastReportedPosition (position (encoder2 d2)) (encoder2 d2)) d2 in
    set_led colorConnected d3
  else d.

(** [handleButton1Event]. *)
Definition handleButton1Event (sw : bool) (now : Z) (d : Sketch) : Sketch :=
  match buttonState (encoder1 d) with
  | BUTTON_DEBOUNCING_DOWN =>
      if buttonDebounceTime <? u32 (now - buttonStateChangeTime (encoder1 d))
      then
        if Bool.eqb sw LOW then
          set_encoder1
            (set_buttonEventProcessed false
               (set_buttonState BUTTON_DOWN (encoder1 d))) d
        else set_encoder1 (set_buttonState BUTTON_UP (encoder1 d)) d
      else d
  | BUTTON_DEBOUNCING_UP =>
      if buttonDebounceTime <? u32 (now - buttonStateChangeTime (encoder1 d))
      then
        if Bool.eqb sw HIGH then
          set_encoder1 (set_buttonState BUTTON_UP (encoder1 d)) d
        else set_encoder1 (set_buttonState BUTTON_DOWN (encoder1 d)) d
      else d
  | BUTTON_DOWN =>
      if ConnectionState_eqb (connectionState d) CONNECTED
         && negb (buttonEventProcessed (encoder1 d)) then
        let d1 := set_led colorActivity d in
        let d2 := write KEY_RETURN d1 in
        let d3 :=
          set_encoder1 (set_buttonEventProcessed true (encoder1 d2)) d2 in
        set_led colorConnected d3
      else d
  | BUTTON_UP => d
  end.

(** [handleButton2Event]. *)
Definition handleButton2Event (sw : bool) (now : Z) (d : Sketch) : Sketch :=
  match buttonState (encoder2 d) with
  | BUTTON_DEBOUNCING_DOWN =>
      if buttonDebounceTime <? u32 (now - buttonStateChangeTime (encoder2 d))
      then
        if Bool.eqb sw LOW then
          set_encoder2
            (set_buttonEventProcessed false
               (set_buttonState BUTTON_DOWN (encoder2 d))) d
        else set_encoder2 (set_buttonState BUTTON_UP (encoder2 d)) d
      else d
  | BUTTON_DEBOUNCING_UP =>
      if buttonDebounceTime <? u32 (now - buttonStateChangeTime (encoder2 d))
      then
        if Bool.eqb sw HIGH then
          set_encoder2 (set_buttonState BUTTON_UP (encoder2 d)) d
        else set_encoder2 (set_buttonState BUTTON_DOWN (encoder2 d)) d
      else d
  | BUTTON_DOWN =>
      if ConnectionState_eqb (connectionState d) CONNECTED
         && negb (buttonEventProcessed (encoder2 d)) then
        let d1 := set_led colorActivity d in
        let d2 := write KEY_LEFT_GUI d1 in
        let d3 :=
          set_encoder2 (set_buttonEventProcessed true (encoder2 d2)) d2 in
        set_led colorConnected d3
      else d
  | BUTTON_UP => d
  end.

(** What one iteration of [loop] reads from the outside world. *)
Record LoopIn : Set := mkLoopIn {
  link : bool;
  conn_t_disc : Z;
  conn_t_retry : Z;
  led_now : Z;
  button1_sw : bool;
  button1_now : Z;
  button2_sw : bool;
  button2_now : Z
}.

(** [loop]. *)
Definition loop (i : LoopIn) (d : Sketch) : Sketch :=
  let d1 := updateConnectionState (link i) (conn_t_disc i) (conn_t_retry i) d in
  let d2 := updateLED (led_now i) d1 in
  let d3 :=
    if ConnectionState_eqb (connectionState d2) CONNECTED then
      handleEncoder2Change (handleEncoder1Change d2)
    else d2 in
  handleButton2Event (button2_sw i) (button2_now i)
    (handleButton1Event (button1_sw i) (button1_now i) d3).

(** The four interrupt handlers and the statements of [loop], one action
    each; both calls of the encoder block are under the test of
    [connectionState], which nothing changes between them. *)
Inductive Action : Set :=
| IsrEncoder1 (pinA pinB : bool) (now : Z)
| IsrEncoder2 (pinA pinB : bool) (now : Z)
| IsrButton1 (sw : bool) (now : Z)
| IsrButton2 (sw : bool) (now : Z)
| LoopConnection (isConnected : bool) (t_disc t_retry : Z)
| LoopLed (now : Z)
| LoopEncoder1
| LoopEncoder2
| LoopButton1 (sw : bool) (now : Z)
| LoopButton2 (sw : bool) (now : Z).

Definition step (a : Action) (d : Sketch) : Sketch :=
  match a with
  | IsrEncoder1 pinA pinB now => encoder1ISR pinA pinB now d
  | IsrEncoder2 pinA pinB now => encoder2ISR pinA pinB now d
  | IsrButton1 sw now => button1ISR sw now d
  | IsrButton2 sw now => button2ISR sw now d
  | LoopConnection isConnected t_disc t_retry =>
      updateConnectionState isConnected t_disc t_retry d
  | LoopLed now => updateLED now d
  | LoopEncoder1 =>
      if ConnectionState_eqb (connectionState d) CONNECTED then
        handleEncoder1Change d
      else d
  | LoopEncoder2 =>
      if ConnectionState_eqb (connectionState d) CONNECTED then
        handleEncoder2Change d
      else d
  | LoopButton1 sw now => handleButton1Event sw now d
  | LoopButton2 sw now => handleButton2Event sw now d
  end.

Fixpoint run (acts : list Action) (d : Sketch) : Sketch :=
  match acts with
  | [] => d
  | a :: rest => run rest (step a d)
  end.

(** One iteration of [loop], as the list of its statements. *)
Definition tick (i : LoopIn) : list Action :=
  [ LoopConnection (link i) (conn_t_disc i) (conn_t_retry i);
    LoopLed (led_now i);
    LoopEncoder1;
    LoopEncoder2;
    LoopButton1 (button1_sw i) (button1_now i);
    LoopButton2 (button2_sw i) (button2_now i) ].

(** The states the sketch can be in. *)
Definition reachable (d : Sketch) : Prop :=
  exists (t : Z) (acts : list Action), d = run acts (setup t power_on).

(** Every key was written while [connectionState] was [CONNECTED]. *)
Definition gated (d : Sketch) : Prop :=
  Forall (fun e => snd e = CONNECTED) (hid d).

End Dual.

(** *** Each encoder of the two-encoder sketch, seen as the one of the
    single-encoder sketch *)

(** The keys of the first encoder. *)
Definition key1 (k : Dual.KeyCode) : option KeyCode :=
  match k with
  | Dual.KEY_RIGHT_ARROW => Some KEY_RIGHT_ARROW
  | Dual.KEY_LEFT_ARROW => Some KEY_LEFT_ARROW
  | Dual.KEY_RETURN => Some KEY_RETURN
  | _ => None
  end.

(** The keys of the second encoder, in the same roles: [Up] when the
    position grew, [Down] when it shrank, [Command] for the button. *)
Definition key2 (k : Dual.KeyCode) : option KeyCode :=
  match k with
  | Dual.KEY_UP_ARROW => Some KEY_RIGHT_ARROW
  | Dual.KEY_DOWN_ARROW => Some KEY_LEFT_ARROW
  | Dual.KEY_LEFT_GUI => Some KEY_RETURN
  | _ => None
  end.

(** The part of the write log that belongs to one encoder. *)
Fixpoint channel_hid (f : Dual.KeyCode -> option KeyCode)
    (l : list (Dual.KeyCode * ConnectionState))
    : list (KeyCode * ConnectionState) :=
  match l with
  | [] => []
  | (k, c) :: rest =>
      match f k with
      | Some k' => (k', c) :: channel_hid f rest
      | None => channel_hid f rest
      end
  end.

Definition channel1 (d : Dual.Sketch) : Sketch :=
  mkSketch (Dual.connectionState d) (Dual.lastConnectionAttempt d)
    (Dual.wasConnected d)
    (Dual.position (Dual.encoder1 d))
    (Dual.lastReportedPosition (Dual.encoder1 d))
    (Dual.lastEvent (Dual.encoder1 d))
    (Dual.old_AB1 d)
    (Dual.buttonState (Dual.encoder1 d))
    (Dual.buttonStateChangeTime (Dual.encoder1 d))
    (Dual.buttonEventProcessed (Dual.encoder1 d))
    (Dual.led d)
    (channel_hid key1 (Dual.hid d)).

Definition channel2 (d : Dual.Sketch) : Sketch :=
  mkSketch (Dual.connectionState d) (Dual.lastConnectionAttempt d)
    (Dual.wasConnected d)
    (Dual.position (Dual.encoder2 d))
    (Dual.lastReportedPosition (Dual.encoder2 d))
    (Dual.lastEvent (Dual.encoder2 d))
    (Dual.old_AB2 d)
    (Dual.buttonState (Dual.encoder2 d))
    (Dual.buttonStateChangeTime (Dual.encoder2 d))
    (Dual.buttonEventProcessed (Dual.encoder2 d))
    (Dual.led d)
    (channel_hid key2 (Dual.hid d)).

(** What an action of the two-encoder sketch is for the first encoder,
    if anything. *)
Definition action1 (a : Dual.Action) : list Action :=
  match a with
  | Dual.IsrEncoder1 pinA pinB now => [IsrEncoder pinA pinB now]
  | Dual.IsrButton1 sw now => [IsrButton sw now]
  | Dual.LoopConnection c t_disc t_retry => [LoopConnection c t_disc t_retry]
  | Dual.LoopLed now => [LoopLed now]
  | Dual.LoopEncoder1 => [LoopEncoder]
  | Dual.LoopButton1 sw now => [LoopButton sw now]
  | _ => []
  end.

(** The same for the second encoder. *)
Definition action2 (a : Dual.Action) : list Action :=
  match a with
  | Dual.IsrEncoder2 pinA pinB now => [IsrEncoder pinA pinB now]
  | Dual.IsrButton2 sw now => [IsrButton sw now]
  | Dual.LoopConnection c t_disc t_retry => [LoopConnection c t_disc t_retry]
  | Dual.LoopLed now => [LoopLed now]
  | Dual.LoopEncoder2 => [LoopEncoder]
  | Dual.LoopButton2 sw now => [LoopButton sw now]
  | _ => []
  end.

(** A state without its LED, which both encoders share. *)
Definition forget_led (s : Sketch) : Sketch := set_led Black s.

(** An interrupt of one of the two buttons, sampling its pin active. *)
Definition samples_button_active (a : Dual.Action) : Prop :=
  match a with
  | Dual.IsrButton1 sw _ => sw = LOW
  | Dual.IsrButton2 sw _ => sw = LOW
  | _ => False
  end.

(** Connected, the second button goes active at 100 ms and the first at
    120 ms. *)
Definition two_buttons_pressed : Dual.Sketch :=
  Dual.run [Dual.LoopConnection true 1 1;
            Dual.IsrButton2 LOW 100; Dual.IsrButton1 LOW 120]
    (Dual.setup 0 Dual.power_on).

(** * Properties *)

(** ** Machine arithmetic *)

Lemma i32_id (z : Z) : INT_MIN <= z <= INT_MAX -> i32 z = z.
Proof.
  unfold i32, INT_MIN, INT_MAX. intros H.
  rewrite Z.mod_small by lia. lia.
Qed.

Lemma i32_range (z : Z) : INT_MIN <= i32 z <= INT_MAX.
Proof.
  unfold i32, INT_MIN, INT_MAX.
  pose proof (Z.mod_pos_bound (z + 2 ^ 31) (2 ^ 32) ltac:(lia)). lia.
Qed.

(** Wrapping commutes with the increments the decoder performs. *)
Lemma i32_add_l (a b : Z) : i32 (i32 a + b) = i32 (a + b).
Proof.
  unfold i32.
  replace ((a + 2 ^ 31) mod 2 ^ 32 - 2 ^ 31 + b + 2 ^ 31)
    with ((a + 2 ^ 31) mod 2 ^ 32 + b) by lia.
  rewrite Zplus_mod_idemp_l. f_equal. f_equal. lia.
Qed.

Lemma i32_step_moves (z d : Z) : d = 1 \/ d = -1 -> i32 (z + d) <> z.
Proof.
  intros Hd E.
  assert (Hr : INT_MIN <= z <= INT_MAX) by (rewrite <- E; apply i32_range).
  unfold i32, INT_MIN, INT_MAX in *.
  assert (Hm : (z + d + 2 ^ 31) mod 2 ^ 32 = z + 2 ^ 31) by lia.
  destruct Hd as [-> | ->].
  - destruct (Z.eq_dec z (2 ^ 31 - 1)) as [-> | Hne].
    + vm_compute in Hm. discriminate.
    + rewrite Z.mod_small in Hm by lia. lia.
  - destruct (Z.eq_dec z (- 2 ^ 31)) as [-> | Hne].
    + vm_compute in Hm. discriminate.
    + rewrite Z.mod_small in Hm by lia. lia.
Qed.

(** Elapsed time between two readings of [millis()], the later one taken
    [d] milliseconds after the earlier one. *)
Lemma u32_elapsed (t d : Z) : u32 (u32 (t + d) - t) = u32 d.
Proof.
  unfold u32. rewrite Zminus_mod_idemp_l. f_equal. lia.
Qed.

(** ** Reading the fields of an updated state *)

Ltac fields :=
  cbn [connectionState lastConnectionAttempt wasConnected encoderPos
       lastReportedPos lastEncoderEvent old_AB buttonState
       buttonStateChangeTime buttonEventProcessed led hid
       set_connectionState set_lastConnectionAttempt set_wasConnected
       set_encoderPos set_lastReportedPos set_lastEncoderEvent set_old_AB
       set_buttonState set_buttonStateChangeTime set_buttonEventProcessed
       set_led write] in *.

(** ** Running actions *)

Lemma run_app (xs ys : list Action) (s : Sketch) :
  run (xs ++ ys) s = run ys (run xs s).
Proof.
  revert s. induction xs as [| a xs IH]; intros s; simpl.
  - reflexivity.
  - apply IH.
Qed.

Lemma run_tick (i : LoopIn) (s : Sketch) : run (tick i) s = loop i s.
Proof. reflexivity. Qed.

(** ** The quadrature decoder *)

(** The two conditions of [encoderISR] are the two adjacencies of the
    Gray-code cycle. *)
Lemma is_clockwise_code (p q : PinPair) :
  is_clockwise (code p) (code q) = clockwise p q.
Proof. destruct p as [[|] [|]], q as [[|] [|]]; reflexivity. Qed.

Lemma is_counter_clockwise_code (p q : PinPair) :
  is_counter_clockwise (code p) (code q) = counter_clockwise p q.
Proof. destruct p as [[|] [|]], q as [[|] [|]]; reflexivity. Qed.

(** No transition is both clockwise and counter-clockwise. *)
Lemma clockwise_not_counter (p q : PinPair) :
  clockwise p q = true -> counter_clockwise p q = false.
Proof. destruct p as [[|] [|]], q as [[|] [|]]; vm_compute; congruence. Qed.

Lemma gray_cw_clockwise (p : PinPair) : clockwise p (gray_cw p) = true.
Proof. destruct p as [[|] [|]]; reflexivity. Qed.

(** [encoderISR] by cases, on a decoder whose history is the pair [p]. *)
Lemma encoderISR_cases (p q : PinPair) (now : Z) (s : Sketch) :
  old_AB s = code p ->
  encoderISR (fst q) (snd q) now s =
    if u32 (now - lastEncoderEvent s) <? encoderDebounceTime then s
    else if clockwise p q then
      set_old_AB (code q)
        (set_lastEncoderEvent now (set_encoderPos (i32 (encoderPos s + 1)) s))
    else if counter_clockwise p q then
      set_old_AB (code q)
        (set_lastEncoderEvent now (set_encoderPos (i32 (encoderPos s - 1)) s))
    else set_old_AB (code q) s.
Proof.
  intros Hold. unfold encoderISR. rewrite Hold.
  fold (code q). rewrite is_clockwise_code, is_counter_clockwise_code.
  destruct (u32 (now - lastEncoderEvent s) <? encoderDebounceTime); [reflexivity|].
  destruct (clockwise p q); [reflexivity|].
  destruct (counter_clockwise p q); reflexivity.
Qed.

(** An invocation rejected by the time check changes nothing. *)
Lemma encoderISR_too_soon (a b : bool) (now : Z) (s : Sketch) :
  u32 (now - lastEncoderEvent s) < encoderDebounceTime ->
  encoderISR a b now s = s.
Proof.
  intros H. unfold encoderISR.
  apply Z.ltb_lt in H. rewrite H. reflexivity.
Qed.

(** An illegal jump changes at most the history. *)
Lemma encoderISR_jump (p q : PinPair) (now : Z) (s : Sketch) :
  old_AB s = code p ->
  adjacent p q = false ->
  encoderISR (fst q) (snd q) now s = after_jump q now s.
Proof.
  intros Hold Hadj. rewrite (encoderISR_cases p q now s Hold).
  unfold adjacent in Hadj. apply orb_false_iff in Hadj as [-> ->].
  reflexivity.
Qed.

(** Replaying legal, accepted transitions: the position moves by the
    clockwise count minus the counter-clockwise count, modulo 2^32. *)
Lemma replay_position (es : list Edge) :
  forall (p : PinPair) (s : Sketch),
    old_AB s = code p ->
    INT_MIN <= encoderPos s <= INT_MAX ->
    legal_from p es ->
    spaced (lastEncoderEvent s) es ->
    encoderPos (run (replay es) s) =
      i32 (encoderPos s + (count_clockwise p es - count_counter_clockwise p es)).
Proof.
  induction es as [| e es IH]; intros p s Hold Hrange Hlegal Hspaced.
  - simpl. rewrite Z.add_0_r. symmetry. apply i32_id. exact Hrange.
  - destruct Hlegal as [Hadj Hlegal]. destruct Hspaced as [Hgap Hspaced].
    cbn [replay map run step edge_action count_clockwise count_counter_clockwise].
    fold (replay es).
    rewrite (encoderISR_cases p (pins e) (at_ms e) s Hold).
    apply Z.ltb_ge in Hgap. rewrite Hgap.
    unfold adjacent in Hadj.
    destruct (clockwise p (pins e)) eqn:Hcw.
    + rewrite (clockwise_not_counter _ _ Hcw).
      rewrite (IH (pins e)); try assumption; try reflexivity.
      * fields. rewrite i32_add_l. f_equal. lia.
      * fields. apply i32_range.
    + simpl in Hadj. rewrite Hadj.
      rewrite (IH (pins e)); try assumption; try reflexivity.
      * fields. rewrite i32_add_l. f_equal. lia.
      * fields. apply i32_range.
Qed.

(** C4: a sequence of legal Gray-code transitions, each accepted by the
    time check (at least [encoderDebounceTime] after the one before it,
    the first one after the initial timestamp 0), replayed against a fresh
    decoder, leaves [encoderPos] equal to the number of clockwise
    transitions minus the number of counter-clockwise ones, clockwise
    being the cycle 00 -> 01 -> 11 -> 10 -> 00.  The position is an
    [int]: the equality holds as it stands when the difference fits one,
    and modulo 2^32 in any case. *)
Theorem fresh_decoder_counts_turns (s : Sketch) (es : list Edge) :
  fresh_decoder s ->
  legal_from (false, false) es ->
  spaced 0 es ->
  let turns := count_clockwise (false, false) es
               - count_counter_clockwise (false, false) es in
  encoderPos (run (replay es) s) = i32 turns /\
  (INT_MIN <= turns <= INT_MAX -> encoderPos (run (replay es) s) = turns).
Proof.
  intros (Hpos & Hlast & Hold) Hlegal Hspaced turns.
  assert (H : encoderPos (run (replay es) s) = i32 turns).
  { rewrite (replay_position es (false, false) s).
    - rewrite Hpos, Z.add_0_l. reflexivity.
    - rewrite Hold. reflexivity.
    - rewrite Hpos. unfold INT_MIN, INT_MAX. lia.
    - exact Hlegal.
    - rewrite Hlast. exact Hspaced. }
  split; [exact H|].
  intros Hfit. rewrite H. apply i32_id. exact Hfit.
Qed.

(** Two clockwise transitions and one counter-clockwise one, 5 ms apart,
    leave the position at 1. *)
Lemma fresh_decoder_counts_turns_witness :
  encoderPos
    (run (replay [mkEdge (false, true) 5; mkEdge (true, true) 10;
                  mkEdge (false, true) 15]) power_on) = 2 - 1.
Proof.
  assert (Hfresh : fresh_decoder power_on) by (repeat split).
  assert (Hlegal : legal_from (false, false)
                     [mkEdge (false, true) 5; mkEdge (true, true) 10;
                      mkEdge (false, true) 15]) by (simpl; repeat split).
  assert (Hspaced : spaced 0
                      [mkEdge (false, true) 5; mkEdge (true, true) 10;
                       mkEdge (false, true) 15])
    by (simpl; repeat split; vm_compute; discriminate).
  destruct (fresh_decoder_counts_turns power_on _ Hfresh Hlegal Hspaced)
    as (_ & Hexact).
  apply Hexact. vm_compute. split; discriminate.
Defined.

(** C5: of two Gray-code-adjacent transitions less than
    [encoderDebounceTime] apart, the first passing the time check, only
    the first is accepted: the second changes nothing, so it does not
    reset the timestamp, and a transition that comes
    [encoderDebounceTime] or more after the first passes the time check
    (it is decoded against the pin pair of the first). *)
Theorem encoder_debounce_from_last_accepted
    (s : Sketch) (p q1 q2 : PinPair) (t1 t2 : Z) :
  old_AB s = code p ->
  adjacent p q1 = true ->
  adjacent q1 q2 = true ->
  encoderDebounceTime <= u32 (t1 - lastEncoderEvent s) ->
  u32 (t2 - t1) < encoderDebounceTime ->
  let s1 := encoderISR (fst q1) (snd q1) t1 s in
  let s2 := encoderISR (fst q2) (snd q2) t2 s1 in
  encoderPos s1 = i32 (encoderPos s + (if clockwise p q1 then 1 else -1)) /\
  encoderPos s1 <> encoderPos s /\
  lastEncoderEvent s1 = t1 /\
  old_AB s1 = code q1 /\
  s2 = s1 /\
  forall (q3 : PinPair) (t3 : Z),
    encoderDebounceTime <= u32 (t3 - t1) ->
    let s3 := encoderISR (fst q3) (snd q3) t3 s2 in
    old_AB s3 = code q3 /\
    (adjacent q1 q3 = true ->
     lastEncoderEvent s3 = t3 /\
     encoderPos s3 =
       i32 (encoderPos s2 + (if clockwise q1 q3 then 1 else -1))).
Proof.
  intros Hold Hadj1 Hadj2 Hgap1 Hgap2 s1 s2.
  assert (Hs1 : s1 =
            set_old_AB (code q1)
              (set_lastEncoderEvent t1
                 (set_encoderPos
                    (i32 (encoderPos s + (if clockwise p q1 then 1 else -1)))
                    s))).
  { unfold s1. rewrite (encoderISR_cases p q1 t1 s Hold).
    apply Z.ltb_ge in Hgap1. rewrite Hgap1.
    unfold adjacent in Hadj1.
    destruct (clockwise p q1); [reflexivity|].
    simpl in Hadj1. rewrite Hadj1. reflexivity. }
  assert (Hs2 : s2 = s1).
  { unfold s2. apply encoderISR_too_soon. rewrite Hs1. fields. exact Hgap2. }
  repeat split.
  - rewrite Hs1. reflexivity.
  - rewrite Hs1. fields. apply i32_step_moves.
    destruct (clockwise p q1); auto.
  - rewrite Hs1. reflexivity.
  - rewrite Hs1. reflexivity.
  - exact Hs2.
  - rewrite Hs2.
    rewrite (encoderISR_cases q1 q3 t3 s1) by (rewrite Hs1; reflexivity).
    assert (Hlast : lastEncoderEvent s1 = t1) by (rewrite Hs1; reflexivity).
    rewrite Hlast. apply Z.ltb_ge in H. rewrite H.
    destruct (clockwise q1 q3); [reflexivity|].
    destruct (counter_clockwise q1 q3); reflexivity.
  - rewrite Hs2 in *.
    rewrite (encoderISR_cases q1 q3 t3 s1) by (rewrite Hs1; reflexivity).
    assert (Hlast : lastEncoderEvent s1 = t1) by (rewrite Hs1; reflexivity).
    rewrite Hlast. apply Z.ltb_ge in H. rewrite H.
    unfold adjacent in H0.
    destruct (clockwise q1 q3); [reflexivity|].
    simpl in H0. rewrite H0. reflexivity.
  - rewrite Hs2 in *.
    rewrite (encoderISR_cases q1 q3 t3 s1) by (rewrite Hs1; reflexivity).
    assert (Hlast : lastEncoderEvent s1 = t1) by (rewrite Hs1; reflexivity).
    rewrite Hlast. apply Z.ltb_ge in H. rewrite H.
    unfold adjacent in H0.
    destruct (clockwise q1 q3); [reflexivity|].
    simpl in H0. rewrite H0. reflexivity.
Qed.

(** From power-on: 00 -> 01 at 10 ms is accepted, 01 -> 11 at 12 ms is
    not. *)
Lemma encoder_debounce_from_last_accepted_witness :
  let s1 := encoderISR false true 10 power_on in
  let s2 := encoderISR true true 12 s1 in
  encoderPos s1 = 1 /\ lastEncoderEvent s1 = 10 /\ s2 = s1.
Proof.
  assert (Hgap1 : encoderDebounceTime <= u32 (10 - lastEncoderEvent power_on))
    by (vm_compute; discriminate).
  assert (Hgap2 : u32 (12 - 10) < encoderDebounceTime) by reflexivity.
  destruct (encoder_debounce_from_last_accepted power_on
              (false, false) (false, true) (true, true) 10 12
              eq_refl eq_refl eq_refl Hgap1 Hgap2)
    as (Hpos & _ & Hlast & _ & Hsame & _).
  split; [exact Hpos | split; [exact Hlast | exact Hsame]].
Defined.

(** C2, as stated, fails: an illegal jump from 00 to 11 seen by
    [encoderISR] 10 ms after power-on changes the 2-bit history from 0
    to 3. *)
Lemma illegal_jump_rewrites_history :
  old_AB power_on = code (false, false) /\
  adjacent (false, false) (pins jump_00_11) = false /\
  old_AB (step (edge_action jump_00_11) power_on) = 3 /\
  old_AB (step (edge_action jump_00_11) power_on) <> old_AB power_on.
Proof. repeat split. vm_compute. discriminate. Qed.

(** C2, amended: an invocation of [encoderISR] that observes an illegal
    jump leaves the position and the timestamp of the last accepted
    transition unchanged, and every variable outside the decoder; the
    2-bit history is unchanged when the invocation is rejected by the
    time check, and becomes the observed pin pair otherwise. *)
Theorem illegal_jump_keeps_position_and_timestamp
    (s : Sketch) (p q : PinPair) (now : Z) :
  old_AB s = code p ->
  adjacent p q = false ->
  let s' := encoderISR (fst q) (snd q) now s in
  encoderPos s' = encoderPos s /\
  lastEncoderEvent s' = lastEncoderEvent s /\
  old_AB s' =
    (if u32 (now - lastEncoderEvent s) <? encoderDebounceTime then old_AB s
     else code q) /\
  s' = set_old_AB (old_AB s') s.
Proof.
  intros Hold Hadj s'. unfold s'.
  rewrite (encoderISR_jump p q now s Hold Hadj). unfold after_jump.
  destruct (u32 (now - lastEncoderEvent s) <? encoderDebounceTime).
  - repeat split. destruct s; reflexivity.
  - repeat split.
Qed.

Lemma illegal_jump_keeps_position_and_timestamp_witness :
  let s' := encoderISR true true 10 power_on in
  encoderPos s' = 0 /\ lastEncoderEvent s' = 0 /\ old_AB s' = 3.
Proof.
  destruct (illegal_jump_keeps_position_and_timestamp power_on
              (false, false) (true, true) 10 eq_refl eq_refl)
    as (Hpos & Hlast & Hold & _).
  split; [exact Hpos | split; [exact Hlast | exact Hold]].
Defined.

(** C9, as stated, fails: from power-on, the legal transition 00 -> 01 at
    20 ms leaves the position at 1; with the illegal jump 00 -> 11
    inserted before it, at 10 ms, the same transition is decoded from 11
    and leaves the position at -1. *)
Lemma illegal_jump_changes_final_position :
  adjacent (false, false) (pins jump_00_11) = false /\
  encoderPos (run (replay [turn_00_01]) power_on) = 1 /\
  encoderPos (run (replay [jump_00_11; turn_00_01]) power_on) = -1.
Proof. repeat split. Qed.

(** C9, amended: an illegal jump inserted anywhere in a sequence does not
    change the position at the invocation that observes it, and it has no
    effect at all when the time check rejects it; otherwise it replaces
    the 2-bit history, so that the rest of the sequence runs as it would
    from the same state with the history set to the pin pair jumped to. *)
Theorem illegal_jump_only_rewrites_history
    (s0 : Sketch) (pre post : list Action) (p q : PinPair) (now : Z) :
  old_AB (run pre s0) = code p ->
  adjacent p q = false ->
  let jump := IsrEncoder (fst q) (snd q) now in
  encoderPos (run (pre ++ [jump]) s0) = encoderPos (run pre s0) /\
  run (pre ++ jump :: post) s0 = run post (after_jump q now (run pre s0)) /\
  (u32 (now - lastEncoderEvent (run pre s0)) < encoderDebounceTime ->
   run (pre ++ jump :: post) s0 = run (pre ++ post) s0).
Proof.
  intros Hold Hadj jump.
  assert (Hjump : step jump (run pre s0) = after_jump q now (run pre s0)).
  { apply (encoderISR_jump p q now _ Hold Hadj). }
  repeat split.
  - rewrite run_app. cbn [run]. rewrite Hjump. unfold after_jump.
    destruct (_ <? _); reflexivity.
  - rewrite run_app. cbn [run]. rewrite Hjump. reflexivity.
  - intros Hsoon. rewrite !run_app. cbn [run]. rewrite Hjump.
    unfold after_jump. apply Z.ltb_lt in Hsoon. rewrite Hsoon. reflexivity.
Qed.

Lemma illegal_jump_only_rewrites_history_witness :
  encoderPos (run (replay [turn_00_01] ++ [edge_action (mkEdge (true, false) 30)])
                power_on) = 1.
Proof.
  destruct (illegal_jump_only_rewrites_history power_on
              (replay [turn_00_01]) [] (false, true) (true, false) 30
              eq_refl eq_refl) as (Hpos & _).
  exact Hpos.
Defined.

(** ** Case analysis on the functions of the sketch *)

Lemma ConnectionState_eqb_eq (a b : ConnectionState) :
  ConnectionState_eqb a b = true <-> a = b.
Proof. destruct a, b; simpl; split; congruence. Qed.

Lemma ButtonState_eqb_eq (a b : ButtonState) :
  ButtonState_eqb a b = true <-> a = b.
Proof. destruct a, b; simpl; split; congruence. Qed.

Ltac unfold_sketch :=
  unfold step, encoderISR, buttonISR, updateConnectionState, updateLED,
    handleEncoderChange, handleButtonEvent in *.

Ltac split_ifs :=
  repeat match goal with
    | |- context [if ?c then _ else _] => destruct c eqn:?; fields
    | |- context [match ?c with DISCONNECTED => _ | _ => _ end] =>
        destruct c eqn:?; fields
    | |- context [match ?c with BUTTON_UP => _ | _ => _ end] =>
        destruct c eqn:?; fields
    end.

(** Opens the state and every test of the function at hand. *)
Ltac by_cases s :=
  destruct s; unfold_sketch; fields; split_ifs.

(** Only [updateConnectionState] touches the connection variables. *)
Lemma step_keeps_connection (a : Action) (s : Sketch) :
  (forall c t1 t2, a <> LoopConnection c t1 t2) ->
  connectionState (step a s) = connectionState s /\
  wasConnected (step a s) = wasConnected s /\
  lastConnectionAttempt (step a s) = lastConnectionAttempt s.
Proof.
  intros Hnot. destruct a as [pa pb now | sw now | c t1 t2 | now | | sw now].
  - by_cases s; repeat split.
  - by_cases s; repeat split.
  - exfalso. apply (Hnot c t1 t2). reflexivity.
  - by_cases s; repeat split.
  - by_cases s; repeat split.
  - by_cases s; repeat split.
Qed.

(** ** Gating of the key emissions *)

Lemma step_gated (a : Action) (s : Sketch) : gated s -> gated (step a s).
Proof.
  unfold gated. intros Hg.
  destruct a as [pa pb now | sw now | c t1 t2 | now | | sw now];
    by_cases s; try exact Hg;
    apply Forall_app; (split; [exact Hg|]);
    repeat constructor; simpl;
    repeat match goal with
      | H : ConnectionState_eqb _ _ = true |- _ =>
          apply ConnectionState_eqb_eq in H
      | H : andb _ _ = true |- _ => apply andb_prop in H as [? ?]
      end; congruence.
Qed.

Lemma run_gated (acts : list Action) :
  forall s : Sketch, gated s -> gated (run acts s).
Proof.
  induction acts as [| a acts IH]; intros s Hg; simpl.
  - exact Hg.
  - apply IH. apply step_gated. exact Hg.
Qed.

(** A statement of [loop] or an interrupt handler sends nothing unless
    the connection is [CONNECTED]. *)
Lemma step_suppressed (a : Action) (s : Sketch) :
  connectionState s <> CONNECTED ->
  (forall c t1 t2, a <> LoopConnection c t1 t2) ->
  hid (step a s) = hid s.
Proof.
  intros Hc Hnot.
  destruct a as [pa pb now | sw now | c t1 t2 | now | | sw now].
  - by_cases s; reflexivity.
  - by_cases s; reflexivity.
  - exfalso. apply (Hnot c t1 t2). reflexivity.
  - by_cases s; reflexivity.
  - destruct s; unfold_sketch; fields.
    destruct connectionState0; simpl; try reflexivity. congruence.
  - destruct s; unfold_sketch; fields.
    destruct buttonState0; split_ifs; try reflexivity;
    destruct connectionState0; simpl in *; congruence.
Qed.

Lemma updateConnectionState_keeps_hid (c : bool) (t1 t2 : Z) (s : Sketch) :
  hid (updateConnectionState c t1 t2 s) = hid s.
Proof. by_cases s; reflexivity. Qed.

Lemma loop_connectionState (i : LoopIn) (s : Sketch) :
  connectionState (loop i s) =
  connectionState
    (updateConnectionState (link i) (conn_t_disc i) (conn_t_retry i) s).
Proof.
  rewrite <- run_tick. unfold tick. cbn [run].
  set (s1 := step (LoopConnection _ _ _) s).
  destruct (step_keeps_connection (LoopButton (button_sw i) (button_now i))
    (step LoopEncoder (step (LoopLed (led_now i)) s1))) as (-> & _);
    [discriminate|].
  destruct (step_keeps_connection LoopEncoder (step (LoopLed (led_now i)) s1))
    as (-> & _); [discriminate|].
  destruct (step_keeps_connection (LoopLed (led_now i)) s1)
    as (-> & _); [discriminate|].
  reflexivity.
Qed.

(** C7: in every reachable state, every key the sketch has written was
    written while [connectionState] was [CONNECTED], and this stays so
    after any further statement of [loop] or interrupt; an iteration of
    [loop] that does not find the connection [CONNECTED] writes
    nothing. *)
Theorem keys_only_while_connected (s : Sketch) :
  reachable s ->
  gated s /\
  (forall a : Action, gated (step a s)) /\
  (forall i : LoopIn,
     connectionState (loop i s) <> CONNECTED -> hid (loop i s) = hid s).
Proof.
  intros (t & acts & ->).
  assert (Hg : gated (run acts (setup t power_on))).
  { apply run_gated. constructor. }
  split; [exact Hg|]. split.
  - intros a. apply step_gated. exact Hg.
  - intros i Hc. rewrite loop_connectionState in Hc.
    set (s := run acts (setup t power_on)) in *.
    rewrite <- run_tick. unfold tick. cbn [run].
    change (step (LoopConnection (link i) (conn_t_disc i) (conn_t_retry i)) s)
      with (updateConnectionState (link i) (conn_t_disc i) (conn_t_retry i) s).
    set (s1 := updateConnectionState _ _ _ s) in *.
    assert (H1 : hid s1 = hid s) by apply updateConnectionState_keeps_hid.
    pose proof (step_keeps_connection (LoopLed (led_now i)) s1
                  ltac:(discriminate)) as (C2 & _).
    pose proof (step_keeps_connection LoopEncoder (step (LoopLed (led_now i)) s1)
                  ltac:(discriminate)) as (C3 & _).
    rewrite step_suppressed; [| congruence | discriminate].
    rewrite step_suppressed; [| congruence | discriminate].
    rewrite step_suppressed; [| congruence | discriminate].
    exact H1.
Qed.

(** After [setup] at 0 ms: a clockwise transition at 10 ms, then an
    iteration of [loop] with the link down. *)
Lemma keys_only_while_connected_witness :
  hid (loop (tick_at false HIGH 15)
         (run [IsrEncoder false true 10] (setup 0 power_on))) = [].
Proof.
  assert (R : reachable (run [IsrEncoder false true 10] (setup 0 power_on))).
  { exists 0, [IsrEncoder false true 10]. reflexivity. }
  destruct (keys_only_while_connected _ R) as (_ & _ & Hquiet).
  rewrite (Hquiet (tick_at false HIGH 15)).
  - reflexivity.
  - vm_compute. discriminate.
Defined.

(** ** The connection manager *)

(** [wasConnected] is set exactly when the state is [CONNECTED]. *)
Lemma step_consistent (a : Action) (s : Sketch) :
  (wasConnected s = true <-> connectionState s = CONNECTED) ->
  (wasConnected (step a s) = true <-> connectionState (step a s) = CONNECTED).
Proof.
  intros Hs.
  destruct a as [pa pb now | sw now | c t1 t2 | now | | sw now];
    try (match goal with
         | |- context [step ?a s] =>
             destruct (step_keeps_connection a s
                         ltac:(intros; discriminate)) as (-> & -> & _)
         end; exact Hs).
  destruct s as [cs lca was ? ? ? ? ? ? ? ? ?]. fields.
  unfold step, updateConnectionState. fields.
  destruct Hs as [Hs1 Hs2].
  destruct c, was, cs; fields; split_ifs; simpl;
    split; intros E; try congruence; try reflexivity;
    try (exfalso;
         first [ discriminate (Hs1 eq_refl) | discriminate (Hs2 eq_refl) ]);
    simpl in *; discriminate.
Qed.

Lemma reachable_consistent (s : Sketch) :
  reachable s -> (wasConnected s = true <-> connectionState s = CONNECTED).
Proof.
  intros (t & acts & ->).
  assert (H0 : wasConnected (setup t power_on) = true <->
               connectionState (setup t power_on) = CONNECTED)
    by (simpl; split; discriminate).
  revert H0. generalize (setup t power_on).
  induction acts as [| a acts IH]; intros s Hs; simpl.
  - exact Hs.
  - apply IH. apply step_consistent. exact Hs.
Qed.

(** While the link stays down and [RECONNECT_DELAY] has not elapsed,
    nothing moves in the connection manager and nothing is sent. *)
Lemma run_waiting (t0 : Z) (ws : list Action) :
  forall s : Sketch,
    connectionState s = DISCONNECTED ->
    wasConnected s = false ->
    lastConnectionAttempt s = t0 ->
    Forall (waits_for_retry t0) ws ->
    connectionState (run ws s) = DISCONNECTED /\
    wasConnected (run ws s) = false /\
    lastConnectionAttempt (run ws s) = t0 /\
    hid (run ws s) = hid s.
Proof.
  induction ws as [| a ws IH]; intros s Hc Hw Hl Hall.
  - simpl. auto.
  - inversion Hall as [| a' ws' Ha Hws]; subst a' ws'.
    cbn [run].
    assert (Hstep : connectionState (step a s) = DISCONNECTED /\
                    wasConnected (step a s) = false /\
                    lastConnectionAttempt (step a s) = lastConnectionAttempt s /\
                    hid (step a s) = hid s).
    { destruct a as [pa pb now | sw now | c t1 t2 | now | | sw now];
        try (match goal with
             | |- context [step ?a s] =>
                 destruct (step_keeps_connection a s
                             ltac:(intros; discriminate)) as (-> & -> & ->)
             end;
             rewrite step_suppressed by (congruence || discriminate);
             auto).
      destruct Ha as [-> Hle]. rewrite <- Hl in Hle.
      apply Z.ltb_ge in Hle.
      unfold step, updateConnectionState. rewrite Hw. simpl.
      rewrite Hc, Hle. auto. }
    destruct Hstep as (Hc' & Hw' & Hl' & Hh').
    destruct (IH (step a s) Hc' Hw' (eq_trans Hl' Hl) Hws) as (? & ? & ? & Hh).
    repeat split; try assumption. rewrite Hh. exact Hh'.
Qed.

(** C6: when the link reports unlinked in a reachable state that is
    [CONNECTED], the state becomes [DISCONNECTED] and the retry baseline
    is the time [t0] read there; while the link stays down the state
    remains [DISCONNECTED], with the same baseline, whatever runs, as long
    as [loop] looks at the clock no later than [RECONNECT_DELAY] after
    [t0]; the first look later than that makes the state [CONNECTING], a
    transition that writes the state and the baseline and nothing else.
    [t0 + 4999] is still [DISCONNECTED], [t0 + 5001] is [CONNECTING]. *)
Theorem disconnect_then_retry_after_delay
    (s : Sketch) (t0 t_same : Z) (ws : list Action) :
  reachable s ->
  connectionState s = CONNECTED ->
  u32 (t_same - t0) <= RECONNECT_DELAY ->
  Forall (waits_for_retry t0) ws ->
  let s1 := updateConnectionState false t0 t_same s in
  let s2 := run ws s1 in
  (connectionState s1 = DISCONNECTED /\ lastConnectionAttempt s1 = t0) /\
  (connectionState s2 = DISCONNECTED /\ lastConnectionAttempt s2 = t0 /\
   hid s2 = hid s) /\
  (forall t_disc t_retry : Z,
     RECONNECT_DELAY < u32 (t_retry - t0) ->
     let s3 := updateConnectionState false t_disc t_retry s2 in
     connectionState s3 = CONNECTING /\
     lastConnectionAttempt s3 = t_retry /\
     s3 = set_lastConnectionAttempt t_retry
            (set_connectionState CONNECTING s2)) /\
  (forall t_disc : Z,
     connectionState
       (updateConnectionState false t_disc (u32 (t0 + 4999)) s2)
     = DISCONNECTED /\
     connectionState
       (updateConnectionState false t_disc (u32 (t0 + 5001)) s2)
     = CONNECTING).
Proof.
  intros Hreach Hc Hsame Hws s1 s2.
  assert (Hwas : wasConnected s = true)
    by (apply (reachable_consistent s Hreach); exact Hc).
  assert (Hs1 : s1 = set_lastConnectionAttempt t0
                       (set_wasConnected false
                          (set_connectionState DISCONNECTED s))).
  { unfold s1, updateConnectionState. rewrite Hwas. simpl. fields.
    apply Z.ltb_ge in Hsame. rewrite Hsame. reflexivity. }
  assert (H1 : connectionState s1 = DISCONNECTED /\ wasConnected s1 = false /\
               lastConnectionAttempt s1 = t0 /\ hid s1 = hid s)
    by (rewrite Hs1; repeat split).
  destruct H1 as (Hc1 & Hw1 & Hl1 & Hh1).
  destruct (run_waiting t0 ws s1 Hc1 Hw1 Hl1 Hws) as (Hc2 & Hw2 & Hl2 & Hh2).
  fold s2 in Hc2, Hw2, Hl2, Hh2.
  assert (Hlate : forall t_disc t_retry : Z,
            RECONNECT_DELAY < u32 (t_retry - t0) ->
            updateConnectionState false t_disc t_retry s2 =
            set_lastConnectionAttempt t_retry
              (set_connectionState CONNECTING s2)).
  { intros t_disc t_retry Hgt.
    unfold updateConnectionState. rewrite Hw2. simpl.
    rewrite Hc2, Hl2. apply Z.ltb_lt in Hgt. rewrite Hgt. reflexivity. }
  split; [split; assumption|].
  split; [repeat split; try assumption; congruence|].
  split.
  - intros t_disc t_retry Hgt s3. unfold s3.
    rewrite (Hlate t_disc t_retry Hgt). repeat split.
  - intros t_disc. split.
    + unfold updateConnectionState. rewrite Hw2. simpl.
      rewrite Hc2, Hl2, u32_elapsed.
      change (RECONNECT_DELAY <? u32 4999) with false. exact Hc2.
    + rewrite Hlate; [reflexivity|].
      rewrite u32_elapsed. reflexivity.
Qed.

(** Connected and idle, the link drops at 1000 ms; [loop] keeps running
    every 5 ms; the iteration at 5999 ms finds [DISCONNECTED], the one at
    6001 ms makes it [CONNECTING]. *)
Lemma disconnect_then_retry_after_delay_witness :
  let s2 :=
    run (tick (tick_at false HIGH 1005) ++ tick (tick_at false HIGH 1010))
      (updateConnectionState false 1000 1000 connected_idle) in
  connectionState (updateConnectionState false 5999 5999 s2) = DISCONNECTED /\
  connectionState (updateConnectionState false 6001 6001 s2) = CONNECTING.
Proof.
  assert (R : reachable connected_idle).
  { exists 0, (tick (tick_at true HIGH 1)). reflexivity. }
  assert (Hsame : u32 (1000 - 1000) <= RECONNECT_DELAY)
    by (vm_compute; discriminate).
  assert (Hws : Forall (waits_for_retry 1000)
                  (tick (tick_at false HIGH 1005)
                   ++ tick (tick_at false HIGH 1010))).
  { repeat constructor; vm_compute; discriminate. }
  destruct (disconnect_then_retry_after_delay connected_idle 1000 1000 _
              R eq_refl Hsame Hws) as (_ & _ & _ & Hscenario).
  exact (Hscenario 5999).
Defined.

(** ** The button debouncer *)

(** Opens the state, the three enumerated variables included. *)
Ltac open_state s :=
  let cs := fresh "cs" in
  let bs := fresh "bs" in
  let bp := fresh "bp" in
  destruct s as [cs ? ? ? ? ? ? bs ? bp ? ?]; destruct cs, bs, bp.

(** The [Enter] key is sent by the button statement of [loop] when it
    finds the button [BUTTON_DOWN], the connection [CONNECTED] and the
    press not processed yet, and by nothing else. *)
Lemma step_count_return (a : Action) (s : Sketch) :
  count_key KEY_RETURN (step a s) =
  (count_key KEY_RETURN s
   + (if finds_down_connected a s && negb (buttonEventProcessed s)
      then 1 else 0))%nat.
Proof.
  destruct a as [pa pb now | sw now | c t1 t2 | now | | sw now];
    destruct s; unfold finds_down_connected, count_key, keys_sent;
    unfold_sketch;
    fields; split_ifs;
    rewrite ?map_app, ?count_occ_app; simpl in *;
    try lia; try discriminate; try congruence.
Qed.

(** [buttonEventProcessed] is cleared by a confirmation and set by the
    emission. *)
Lemma step_processed (a : Action) (s : Sketch) :
  buttonEventProcessed (step a s) =
    if confirms_down a s then false
    else if finds_down_connected a s then true
    else buttonEventProcessed s.
Proof.
  destruct a as [pa pb now | sw now | c t1 t2 | now | | sw now];
    open_state s; unfold confirms_down, finds_down_connected; unfold_sketch;
    fields; simpl; split_ifs; simpl in *; try reflexivity; try discriminate;
    try congruence.
Qed.

Lemma finds_down_before (a : Action) (s : Sketch) :
  before_down s = true -> finds_down_connected a s = false.
Proof.
  unfold before_down, finds_down_connected.
  destruct a; try reflexivity. destruct (buttonState s); simpl; congruence.
Qed.

Lemma finds_down_stays (a : Action) (s : Sketch) :
  finds_down_connected a s = true -> buttonState (step a s) = BUTTON_DOWN.
Proof.
  destruct a as [pa pb now | sw now | c t1 t2 | now | | sw now];
    open_state s; unfold finds_down_connected; unfold_sketch;
    fields; simpl; split_ifs; simpl in *; try reflexivity; try discriminate;
    try congruence.
Qed.

Lemma confirms_down_after (a : Action) (s : Sketch) :
  confirms_down a s = true ->
  before_down s = true /\ before_down (step a s) = false.
Proof.
  unfold confirms_down, before_down. intros H.
  apply andb_prop in H as [H1 H2].
  apply ButtonState_eqb_eq in H1, H2. rewrite H1, H2. split; reflexivity.
Qed.

(** Without a confirmation the button does not get past
    [BUTTON_DEBOUNCING_DOWN]. *)
Lemma step_stays_before (a : Action) (s : Sketch) :
  before_down s = true -> confirms_down a s = false ->
  before_down (step a s) = true.
Proof.
  destruct a as [pa pb now | sw now | c t1 t2 | now | | sw now];
    open_state s; unfold confirms_down, before_down; unfold_sketch;
    fields; simpl; split_ifs; simpl in *; try reflexivity; try discriminate;
    try congruence.
Qed.

Lemma step_stays_connected (a : Action) (s : Sketch) :
  connectionState s = CONNECTED -> link_up a ->
  connectionState (step a s) = CONNECTED.
Proof.
  intros Hc Hup.
  destruct a as [pa pb now | sw now | c t1 t2 | now | | sw now];
    try (match goal with
         | |- context [step ?a s] =>
             destruct (step_keeps_connection a s
                         ltac:(intros; discriminate)) as (-> & _)
         end; exact Hc).
  simpl in Hup. subst c.
  destruct s as [cs lca was ? ? ? ? ? ? ? ? ?]. fields. subst cs.
  unfold step, updateConnectionState. fields.
  destruct was; reflexivity.
Qed.

(** One press, connection up throughout: the key count by induction on
    the run, before the confirmation (first and third clause) and after
    it (second clause). *)
Lemma one_press_count (acts : list Action) :
  forall s : Sketch,
    connectionState s = CONNECTED ->
    Forall link_up acts ->
    (before_down s = true -> (confirmations acts s <= 1)%nat ->
     count_key KEY_RETURN (run acts s) =
     (count_key KEY_RETURN s
      + (if (0 <? down_while_connected acts s)%nat then 1 else 0))%nat) /\
    (before_down s = false -> confirmations acts s = 0%nat ->
     count_key KEY_RETURN (run acts s) =
     (count_key KEY_RETURN s
      + (if buttonEventProcessed s then 0
         else if (0 <? down_while_connected acts s)%nat then 1 else 0))%nat) /\
    (before_down s = true -> confirmations acts s = 0%nat ->
     down_while_connected acts s = 0%nat).
Proof.
  induction acts as [| a acts IH]; intros s Hc Hup.
  - simpl. repeat split; intros; try lia. destruct (buttonEventProcessed s); lia.
  - inversion Hup as [| a' acts' Ha Hacts]; subst a' acts'.
    pose proof (step_stays_connected a s Hc Ha) as Hc'.
    destruct (IH (step a s) Hc' Hacts) as (IH1 & IH2 & IH3).
    pose proof (step_count_return a s) as Hcount.
    pose proof (step_processed a s) as Hproc.
    cbn [run confirmations down_while_connected].
    repeat split.
    + intros Hb Hconf.
      rewrite (finds_down_before a s Hb) in *. simpl in Hcount.
      destruct (confirms_down a s) eqn:Hcf.
      * destruct (confirms_down_after a s Hcf) as (_ & Hb').
        rewrite IH2 by (assumption || lia). rewrite Hproc, Hcount. simpl. lia.
      * pose proof (step_stays_before a s Hb Hcf) as Hb'.
        rewrite IH1 by (assumption || lia). rewrite Hcount. simpl. lia.
    + intros Hb Hconf.
      destruct (confirms_down a s) eqn:Hcf; [simpl in Hconf; lia|].
      simpl in Hconf.
      destruct (finds_down_connected a s) eqn:Hfd.
      * pose proof (finds_down_stays a s Hfd) as Hdown.
        assert (Hb' : before_down (step a s) = false)
          by (unfold before_down; rewrite Hdown; reflexivity).
        rewrite IH2 by assumption. rewrite Hproc, Hcount. simpl.
        destruct (buttonEventProcessed s); simpl; lia.
      * simpl in Hcount. rewrite Hproc in IH2.
        destruct (before_down (step a s)) eqn:Hb'.
        -- rewrite IH1 by (reflexivity || lia).
           rewrite (IH3 eq_refl Hconf), Hcount. simpl.
           destruct (buttonEventProcessed s); simpl; lia.
        -- rewrite IH2 by (reflexivity || assumption). rewrite Hcount. simpl.
           lia.
    + intros Hb Hconf.
      rewrite (finds_down_before a s Hb).
      destruct (confirms_down a s) eqn:Hcf; [simpl in Hconf; lia|].
      simpl in Hconf. simpl. apply IH3; [|exact Hconf].
      apply step_stays_before; assumption.
Qed.

(** A confirmed press is pending until its key is sent; it stays so as
    long as [loop] does not find the button down while connected. *)
Lemma run_without_visit (acts : list Action) :
  forall s : Sketch,
    down_while_connected acts s = 0%nat ->
    (before_down s = false -> buttonEventProcessed s = false) ->
    count_key KEY_RETURN (run acts s) = count_key KEY_RETURN s /\
    (before_down (run acts s) = false ->
     buttonEventProcessed (run acts s) = false).
Proof.
  induction acts as [| a acts IH]; intros s Hv Hp.
  - simpl. split; [reflexivity | exact Hp].
  - cbn [run down_while_connected] in *.
    destruct (finds_down_connected a s) eqn:Hfd; [simpl in Hv; lia|].
    simpl in Hv.
    pose proof (step_count_return a s) as Hcount.
    pose proof (step_processed a s) as Hproc.
    rewrite Hfd in *. simpl in Hcount.
    destruct (IH (step a s) Hv) as (IHc & IHp).
    + intros Hb'. rewrite Hproc.
      destruct (confirms_down a s) eqn:Hcf; [reflexivity|].
      apply Hp. destruct (before_down s) eqn:Hb; [|reflexivity].
      rewrite (step_stays_before a s Hb Hcf) in Hb'. discriminate.
    + split; [rewrite IHc, Hcount; lia | exact IHp].
Qed.

(** The keys sent never outnumber the confirmations, the pending press
    counted in. *)
Lemma run_count_bound (acts : list Action) :
  forall s : Sketch,
    (count_key KEY_RETURN (run acts s) + pending (run acts s)
     <= count_key KEY_RETURN s + pending s + confirmations acts s)%nat.
Proof.
  induction acts as [| a acts IH]; intros s.
  - simpl. lia.
  - cbn [run confirmations].
    specialize (IH (step a s)).
    assert (Hstep : (count_key KEY_RETURN (step a s) + pending (step a s)
                     <= count_key KEY_RETURN s + pending s
                        + (if confirms_down a s then 1 else 0))%nat).
    { rewrite step_count_return.
      pose proof (step_processed a s) as Hproc.
      assert (Hpend : forall x, pending x =
                if before_down x then 0%nat
                else if buttonEventProcessed x then 0%nat else 1%nat).
      { intros x. unfold pending, before_down.
        destruct (buttonState x); reflexivity. }
      rewrite !Hpend, Hproc.
      destruct (confirms_down a s) eqn:Hcf.
      - destruct (confirms_down_after a s Hcf) as (Hb & Hb').
        rewrite Hb, Hb', (finds_down_before a s Hb). simpl. lia.
      - destruct (finds_down_connected a s) eqn:Hfd.
        + pose proof (finds_down_stays a s Hfd) as Hdown.
          assert (Hb' : before_down (step a s) = false)
            by (unfold before_down; rewrite Hdown; reflexivity).
          rewrite Hb'.
          destruct (before_down s) eqn:Hb.
          * rewrite (finds_down_before a s Hb) in Hfd. discriminate.
          * destruct (buttonEventProcessed s); simpl; lia.
        + simpl. destruct (before_down s) eqn:Hb.
          * rewrite (step_stays_before a s Hb Hcf). lia.
          * destruct (before_down (step a s));
              destruct (buttonEventProcessed s); lia. }
    lia.
Qed.

(** The four moves of a clean press, by equations. *)
Lemma buttonISR_press (t : Z) (s : Sketch) :
  buttonState s = BUTTON_UP ->
  buttonISR LOW t s =
  set_buttonStateChangeTime t (set_buttonState BUTTON_DEBOUNCING_DOWN s).
Proof. intros Hb. unfold buttonISR. rewrite Hb. reflexivity. Qed.

Lemma handleButtonEvent_confirm (t : Z) (s : Sketch) :
  buttonState s = BUTTON_DEBOUNCING_DOWN ->
  buttonDebounceTime < u32 (t - buttonStateChangeTime s) ->
  handleButtonEvent LOW t s =
  set_buttonEventProcessed false (set_buttonState BUTTON_DOWN s).
Proof.
  intros Hb Hlate. unfold handleButtonEvent. rewrite Hb.
  apply Z.ltb_lt in Hlate. rewrite Hlate. reflexivity.
Qed.

Lemma handleButtonEvent_bounce (t : Z) (s : Sketch) :
  buttonState s = BUTTON_DEBOUNCING_DOWN ->
  buttonDebounceTime < u32 (t - buttonStateChangeTime s) ->
  handleButtonEvent HIGH t s = set_buttonState BUTTON_UP s.
Proof.
  intros Hb Hlate. unfold handleButtonEvent. rewrite Hb.
  apply Z.ltb_lt in Hlate. rewrite Hlate. reflexivity.
Qed.

Lemma handleButtonEvent_emit (sw : bool) (t : Z) (s : Sketch) :
  buttonState s = BUTTON_DOWN ->
  connectionState s = CONNECTED ->
  buttonEventProcessed s = false ->
  handleButtonEvent sw t s =
  set_led colorConnected
    (set_buttonEventProcessed true
       (write KEY_RETURN (set_led colorActivity s))).
Proof.
  intros Hb Hc Hp. unfold handleButtonEvent. rewrite Hb. fields.
  rewrite Hc, Hp. reflexivity.
Qed.

(** The key goes out at a button statement of [loop] that finds the
    button down and leaves it down. *)
Lemma emission_in_down (a : Action) (s : Sketch) :
  count_key KEY_RETURN (step a s) <> count_key KEY_RETURN s ->
  buttonState s = BUTTON_DOWN /\
  buttonState (step a s) = BUTTON_DOWN /\
  exists (sw : bool) (now : Z), a = LoopButton sw now.
Proof.
  intros Hne. rewrite step_count_return in Hne.
  destruct (finds_down_connected a s) eqn:Hfd; [|simpl in Hne; lia].
  split; [|split].
  - unfold finds_down_connected in Hfd. destruct a; try discriminate.
    apply andb_prop in Hfd as [Hb _]. apply ButtonState_eqb_eq. exact Hb.
  - apply finds_down_stays. exact Hfd.
  - unfold finds_down_connected in Hfd. destruct a; try discriminate.
    eauto.
Qed.

(** C8, as stated, fails: a press seen at 100 ms whose pin is inactive
    again at the re-sample, 51 ms later, takes the button from
    [BUTTON_DEBOUNCING_DOWN] back to [BUTTON_UP], which is not the next
    stage of the cycle. *)
Lemma failed_confirmation_steps_back :
  let s := step (IsrButton LOW 100) connected_idle in
  let s' := step (LoopButton HIGH 151) s in
  buttonState s = BUTTON_DEBOUNCING_DOWN /\
  buttonState s' = BUTTON_UP /\
  buttonState s' <> buttonState s /\
  buttonState s' <> next_stage (buttonState s).
Proof. repeat split; vm_compute; discriminate. Qed.

(** C8, amended: every statement of [loop] and every interrupt leaves the
    button state where it is, or moves it to the next stage of the cycle
    Up -> DebouncingDown -> Down -> DebouncingUp -> Up, or, when the
    dispatcher re-samples the pin after the debounce time and finds that
    the level did not hold, moves it back to the stage before; no stage
    is skipped, and the interrupt handler only moves forward, into a
    debouncing stage. *)
Theorem button_moves_one_stage (a : Action) (s : Sketch) :
  let b := buttonState s in
  let b' := buttonState (step a s) in
  b' <> next_stage (next_stage b) /\
  (b' = b \/
   b' = next_stage b \/
   (b = next_stage b' /\
    exists (sw : bool) (now : Z),
      a = LoopButton sw now /\
      buttonDebounceTime < u32 (now - buttonStateChangeTime s) /\
      ((b = BUTTON_DEBOUNCING_DOWN /\ sw = HIGH) \/
       (b = BUTTON_DEBOUNCING_UP /\ sw = LOW)))) /\
  ((exists (sw : bool) (now : Z), a = IsrButton sw now) ->
   b' = b \/
   (b' = next_stage b /\
    (b' = BUTTON_DEBOUNCING_DOWN \/ b' = BUTTON_DEBOUNCING_UP))).
Proof.
  destruct a as [pa pb now | sw now | c t1 t2 | now | | sw now];
    open_state s; unfold_sketch; fields; simpl; split_ifs; simpl;
    (split; [discriminate|]);
    (split; [|intros (sw' & now' & E); try discriminate E; auto]);
    auto.
  all: right; right; split; [reflexivity|];
    exists sw, now; split; [reflexivity|];
    (split; [apply Z.ltb_lt; assumption|]);
    destruct sw; simpl in *; try discriminate; auto.
Qed.

(** C3: the claim holds of a button that is still [BUTTON_DOWN] at the
    call of [handleButtonEvent] after the one that confirms the press,
    but the sketch loses a shorter press.  Connected throughout, the
    button goes active at 100 ms; the iteration of [loop] at 151 ms
    confirms the press and queues it ([buttonEventProcessed] false); the
    button is released at 152 ms, after 52 ms, and [buttonISR] moves it
    to [BUTTON_DEBOUNCING_UP] before the next iteration; the release is
    confirmed at 206 ms.  The cycle is complete, the queued press was
    never sent and the flag is left false. *)
Lemma short_press_sends_nothing :
  let s := run short_press connected_idle in
  Forall link_up short_press /\
  buttonState connected_idle = BUTTON_UP /\
  buttonState (run [IsrButton LOW 100] connected_idle)
    = BUTTON_DEBOUNCING_DOWN /\
  buttonState (run press_confirmed connected_idle) = BUTTON_DOWN /\
  buttonEventProcessed (run press_confirmed connected_idle) = false /\
  buttonState (run (press_confirmed ++ [IsrButton HIGH 152]) connected_idle)
    = BUTTON_DEBOUNCING_UP /\
  buttonState s = BUTTON_UP /\
  buttonEventProcessed s = false /\
  confirmations short_press connected_idle = 1%nat /\
  keys_sent s = [].
Proof.
  repeat split; try reflexivity.
  unfold short_press, press_confirmed, tick. simpl.
  repeat constructor.
Qed.

(** The keys of one press, with the connection up at every iteration of
    [loop]: in a run from [BUTTON_UP] with at most one confirmation, the
    key is counted once exactly when some button statement of [loop]
    finds the button [BUTTON_DOWN]; that statement starts and ends in
    [BUTTON_DOWN], so the key goes out neither at the confirmation (it is
    deferred by one call) nor on release.  A button still active at the
    re-sample, more than [buttonDebounceTime] after the press, and still
    down at the next button statement sends exactly one key; a bounce,
    inactive again at the re-sample, sends none. *)
Theorem one_key_per_press_seen_down (s : Sketch) (acts : list Action) :
  connectionState s = CONNECTED ->
  Forall link_up acts ->
  buttonState s = BUTTON_UP ->
  (confirmations acts s <= 1)%nat ->
  count_key KEY_RETURN (run acts s) =
    (count_key KEY_RETURN s
     + (if (0 <? down_while_connected acts s)%nat then 1 else 0))%nat /\
  (forall (pre post : list Action) (a : Action),
     acts = pre ++ a :: post ->
     count_key KEY_RETURN (step a (run pre s))
       <> count_key KEY_RETURN (run pre s) ->
     buttonState (run pre s) = BUTTON_DOWN /\
     buttonState (step a (run pre s)) = BUTTON_DOWN /\
     exists (sw : bool) (now : Z), a = LoopButton sw now) /\
  (forall (t0 t1 t2 : Z) (sw : bool),
     buttonDebounceTime < u32 (t1 - t0) ->
     keys_sent
       (run [IsrButton LOW t0; LoopButton LOW t1; LoopButton sw t2] s)
     = keys_sent s ++ [KEY_RETURN]) /\
  (forall t0 t1 : Z,
     buttonDebounceTime < u32 (t1 - t0) ->
     buttonState (run [IsrButton LOW t0; LoopButton HIGH t1] s) = BUTTON_UP /\
     keys_sent (run [IsrButton LOW t0; LoopButton HIGH t1] s) = keys_sent s).
Proof.
  intros Hc Hup Hb Hconf.
  assert (Hbefore : before_down s = true)
    by (unfold before_down; rewrite Hb; reflexivity).
  destruct (one_press_count acts s Hc Hup) as (H1 & _ & _).
  split; [apply H1; assumption|].
  split; [intros pre post a _ Hne; apply emission_in_down; exact Hne|].
  split.
  - intros t0 t1 t2 sw Hlate. cbn [run step].
    rewrite (buttonISR_press t0 s Hb).
    rewrite handleButtonEvent_confirm by (fields; auto).
    rewrite handleButtonEvent_emit by (fields; auto).
    unfold keys_sent. fields. rewrite map_app. reflexivity.
  - intros t0 t1 Hlate. cbn [run step].
    rewrite (buttonISR_press t0 s Hb).
    rewrite handleButtonEvent_bounce by (fields; auto).
    split; reflexivity.
Qed.

(** A press of 200 ms: confirmed at 151 ms, seen down at 156 ms, released
    at 300 ms; one key. *)
Lemma one_key_per_press_seen_down_witness :
  count_key KEY_RETURN (run long_press connected_idle) = 1%nat.
Proof.
  assert (Hup : Forall link_up long_press).
  { unfold long_press, tick. simpl. repeat constructor. }
  assert (Hconf : (confirmations long_press connected_idle <= 1)%nat).
  { vm_compute. lia. }
  destruct (one_key_per_press_seen_down connected_idle long_press
              eq_refl Hup eq_refl Hconf) as (Hcount & _).
  exact Hcount.
Defined.

(** C10: a press whose re-sample succeeds is confirmed whatever the
    connection state: the button is [BUTTON_DOWN], [buttonEventProcessed]
    is false and nothing is sent.  As long as no button statement of
    [loop] finds the button [BUTTON_DOWN] and the connection [CONNECTED],
    nothing is sent; the first one that does sends the key.  If the
    button is back to [BUTTON_UP] by then, the press is lost: every key
    sent afterwards is owed to a later confirmation. *)
Theorem press_confirmed_offline_waits
    (s : Sketch) (now : Z) (ws : list Action) :
  buttonState s = BUTTON_DEBOUNCING_DOWN ->
  buttonDebounceTime < u32 (now - buttonStateChangeTime s) ->
  let s1 := handleButtonEvent LOW now s in
  down_while_connected ws s1 = 0%nat ->
  let s2 := run ws s1 in
  (buttonState s1 = BUTTON_DOWN /\ buttonEventProcessed s1 = false /\
   hid s1 = hid s) /\
  count_key KEY_RETURN s2 = count_key KEY_RETURN s /\
  (forall (sw : bool) (t : Z),
     buttonState s2 = BUTTON_DOWN ->
     connectionState s2 = CONNECTED ->
     keys_sent (handleButtonEvent sw t s2) = keys_sent s2 ++ [KEY_RETURN] /\
     buttonEventProcessed (handleButtonEvent sw t s2) = true) /\
  (buttonState s2 = BUTTON_UP ->
   forall more : list Action,
     (count_key KEY_RETURN (run more s2)
      <= count_key KEY_RETURN s + confirmations more s2)%nat).
Proof.
  intros Hb Hlate s1 Hquiet s2.
  assert (Hs1 : s1 = set_buttonEventProcessed false
                       (set_buttonState BUTTON_DOWN s))
    by (apply handleButtonEvent_confirm; assumption).
  assert (H1 : buttonState s1 = BUTTON_DOWN /\
               buttonEventProcessed s1 = false /\ hid s1 = hid s)
    by (rewrite Hs1; repeat split).
  destruct H1 as (Hb1 & Hp1 & Hh1).
  assert (Hc1 : count_key KEY_RETURN s1 = count_key KEY_RETURN s)
    by (unfold count_key, keys_sent; rewrite Hh1; reflexivity).
  destruct (run_without_visit ws s1 Hquiet (fun _ => Hp1)) as (Hc2 & Hp2).
  fold s2 in Hc2, Hp2.
  split; [repeat split; assumption|].
  split; [congruence|].
  split.
  - intros sw t Hb2 Hconn.
    assert (Hp : buttonEventProcessed s2 = false)
      by (apply Hp2; unfold before_down; rewrite Hb2; reflexivity).
    rewrite (handleButtonEvent_emit sw t s2 Hb2 Hconn Hp).
    split; [|reflexivity].
    unfold keys_sent. fields. rewrite map_app. reflexivity.
  - intros Hup more.
    pose proof (run_count_bound more s2) as Hbound.
    assert (Hpend : pending s2 = 0%nat) by (unfold pending; rewrite Hup; reflexivity).
    lia.
Qed.

(** Link down: the press at 100 ms is confirmed at 151 ms; the link comes
    up at 160 ms with the button still down, and the key goes out. *)
Lemma press_confirmed_offline_waits_witness :
  let s := step (IsrButton LOW 100) (setup 0 power_on) in
  let s2 := run [LoopButton LOW 156; LoopConnection true 160 160]
              (handleButtonEvent LOW 151 s) in
  keys_sent s2 = [] /\
  keys_sent (handleButtonEvent LOW 161 s2) = [KEY_RETURN].
Proof.
  assert (Hlate : buttonDebounceTime
                  < u32 (151 - buttonStateChangeTime
                                 (step (IsrButton LOW 100) (setup 0 power_on))))
    by reflexivity.
  destruct (press_confirmed_offline_waits
              (step (IsrButton LOW 100) (setup 0 power_on)) 151
              [LoopButton LOW 156; LoopConnection true 160 160]
              eq_refl Hlate eq_refl) as (_ & _ & Hsend & _).
  destruct (Hsend LOW 161 eq_refl eq_refl) as (Hkeys & _).
  split; [reflexivity | exact Hkeys].
Defined.

(** ** The dispatcher and the encoder *)

Lemma handleEncoderChange_idle (s : Sketch) :
  encoderPos s = lastReportedPos s -> handleEncoderChange s = s.
Proof.
  intros H. unfold handleEncoderChange.
  apply Z.eqb_eq in H. rewrite H. reflexivity.
Qed.

(** Whatever the size of the difference, one key and one assignment. *)
Lemma handleEncoderChange_pending (s : Sketch) :
  encoderPos s <> lastReportedPos s ->
  handleEncoderChange s =
  set_led colorConnected
    (set_lastReportedPos (encoderPos s)
       (write (if lastReportedPos s <? encoderPos s
               then KEY_RIGHT_ARROW else KEY_LEFT_ARROW)
          (set_led colorActivity s))).
Proof.
  intros H. unfold handleEncoderChange.
  apply Z.eqb_neq in H. rewrite H. fields. simpl.
  destruct (lastReportedPos s <? encoderPos s); reflexivity.
Qed.

(** A statement of [loop] other than the encoder one sends no arrow key
    and leaves both positions alone. *)
Lemma step_keeps_arrows (a : Action) (s : Sketch) :
  a <> LoopEncoder ->
  (forall pa pb now, a <> IsrEncoder pa pb now) ->
  arrows (step a s) = arrows s /\
  encoderPos (step a s) = encoderPos s /\
  lastReportedPos (step a s) = lastReportedPos s.
Proof.
  intros Hne Hni.
  destruct a as [pa pb now | sw now | c t1 t2 | now | | sw now];
    try congruence; try (exfalso; apply (Hni pa pb now); reflexivity).
  all: open_state s; unfold arrows, count_key, keys_sent; unfold_sketch;
    fields; simpl; split_ifs; rewrite ?map_app, ?count_occ_app; simpl;
    repeat split; f_equal; lia.
Qed.

(** The interrupt handler of the encoder sends nothing and leaves the
    reported position and the connection alone. *)
Lemma replay_frame (es : list Edge) :
  forall s : Sketch,
    hid (run (replay es) s) = hid s /\
    lastReportedPos (run (replay es) s) = lastReportedPos s /\
    connectionState (run (replay es) s) = connectionState s.
Proof.
  induction es as [| e es IH]; intros s.
  - simpl. auto.
  - cbn [replay map run]. fold (replay es).
    destruct (IH (step (edge_action e) s)) as (-> & -> & ->).
    unfold edge_action. by_cases s; auto.
Qed.

Lemma clockwise_turns_legal (ts : list Z) :
  forall p : PinPair, legal_from p (clockwise_turns p ts).
Proof.
  induction ts as [| t ts IH]; intros p; simpl.
  - exact I.
  - split; [|apply IH].
    unfold adjacent. rewrite gray_cw_clockwise. reflexivity.
Qed.

Lemma clockwise_turns_count (ts : list Z) :
  forall p : PinPair,
    count_clockwise p (clockwise_turns p ts) = Z.of_nat (length ts) /\
    count_counter_clockwise p (clockwise_turns p ts) = 0.
Proof.
  induction ts as [| t ts IH]; intros p.
  - simpl. auto.
  - cbn [clockwise_turns count_clockwise count_counter_clockwise pins length].
    destruct (IH (gray_cw p)) as (-> & ->).
    rewrite gray_cw_clockwise.
    rewrite (clockwise_not_counter _ _ (gray_cw_clockwise p)). lia.
Qed.

(** One iteration of [loop], connection up. *)
Lemma loop_connected (i : LoopIn) (s : Sketch) :
  connectionState s = CONNECTED ->
  link i = true ->
  connectionState (loop i s) = CONNECTED /\
  encoderPos (loop i s) = encoderPos s /\
  lastReportedPos (loop i s) = encoderPos s /\
  arrows (loop i s) =
    (if encoderPos s =? lastReportedPos s then arrows s
     else if lastReportedPos s <? encoderPos s
          then (S (fst (arrows s)), snd (arrows s))
          else (fst (arrows s), S (snd (arrows s)))).
Proof.
  intros Hc Hl. rewrite <- run_tick. unfold tick. cbn [run]. rewrite Hl.
  set (s1 := step (LoopConnection true _ _) s).
  set (s2 := step (LoopLed _) s1).
  set (s3 := step LoopEncoder s2).
  destruct (step_keeps_arrows (LoopConnection true (conn_t_disc i)
                                 (conn_t_retry i)) s
              ltac:(discriminate) ltac:(discriminate)) as (A1 & P1 & R1).
  destruct (step_keeps_arrows (LoopLed (led_now i)) s1
              ltac:(discriminate) ltac:(discriminate)) as (A2 & P2 & R2).
  destruct (step_keeps_arrows (LoopButton (button_sw i) (button_now i)) s3
              ltac:(discriminate) ltac:(discriminate)) as (A4 & P4 & R4).
  assert (C1 : connectionState s1 = CONNECTED)
    by (apply step_stays_connected; [exact Hc | reflexivity]).
  assert (C2 : connectionState s2 = CONNECTED)
    by (apply step_stays_connected; [exact C1 | exact I]).
  assert (C3 : connectionState s3 = CONNECTED)
    by (apply step_stays_connected; [exact C2 | exact I]).
  fold s1 in A1, P1, R1. fold s2 in A2, P2, R2.
  split; [apply step_stays_connected; [exact C3 | exact I]|].
  rewrite A4, P4, R4.
  assert (E2 : encoderPos s2 = encoderPos s) by congruence.
  assert (L2 : lastReportedPos s2 = lastReportedPos s) by congruence.
  assert (A : arrows s2 = arrows s) by congruence.
  rewrite <- E2, <- L2, <- A. clearbody s2. clear - C2.
  unfold s3, step. rewrite C2. simpl.
  destruct (Z.eq_dec (encoderPos s2) (lastReportedPos s2)) as [E | N].
  - rewrite (handleEncoderChange_idle s2 E).
    apply Z.eqb_eq in E. rewrite E. apply Z.eqb_eq in E. auto.
  - rewrite (handleEncoderChange_pending s2 N).
    apply Z.eqb_neq in N. rewrite N. fields.
    repeat split.
    unfold arrows. fields.
    change (write ?k (set_led ?c s2)) with (write k (set_led c s2)).
    destruct (lastReportedPos s2 <? encoderPos s2);
      unfold count_key, keys_sent; destruct s2; fields;
      rewrite map_app, !count_occ_app; simpl; f_equal; lia.
Qed.

(** Iterations of [loop] with the connection up and nothing pending send
    no arrow key. *)
Lemma run_ticks_synced (ticks : list LoopIn) :
  forall s : Sketch,
    connectionState s = CONNECTED ->
    Forall (fun i => link i = true) ticks ->
    lastReportedPos s = encoderPos s ->
    arrows (run (concat (map tick ticks)) s) = arrows s /\
    encoderPos (run (concat (map tick ticks)) s) = encoderPos s /\
    lastReportedPos (run (concat (map tick ticks)) s) = encoderPos s.
Proof.
  induction ticks as [| i ticks IH]; intros s Hc Hl Hsync.
  - simpl. auto.
  - inversion Hl as [| i' ticks' Hi Hticks]; subst i' ticks'.
    cbn [map concat]. rewrite run_app, run_tick.
    destruct (loop_connected i s Hc Hi) as (C & P & R & A).
    destruct (IH (loop i s) C Hticks (eq_trans R (eq_sym P))) as (A' & P' & R').
    rewrite A', P', R', A, P.
    symmetry in Hsync. apply Z.eqb_eq in Hsync. rewrite Hsync. auto.
Qed.

(** C1, as stated, fails: connected and idle, two clockwise transitions
    (at 10 ms and 20 ms) leave two steps pending; the two iterations of
    [loop] that follow (at 25 ms and 30 ms, link up) send one [Right]
    key, not two. *)
Lemma two_pending_steps_send_one_key :
  let s1 := run (replay (clockwise_turns (false, false) [10; 20]))
              connected_idle in
  let s2 := run (tick (tick_at true HIGH 25) ++ tick (tick_at true HIGH 30))
              s1 in
  connectionState s1 = CONNECTED /\
  encoderPos s1 - lastReportedPos s1 = 2 /\
  keys_sent s2 = [KEY_RIGHT_ARROW] /\
  count_key KEY_RIGHT_ARROW s2 <> 2%nat /\
  lastReportedPos s2 = encoderPos s2.
Proof. repeat split. vm_compute. discriminate. Qed.

(** C1, amended: while [CONNECTED], an iteration of [loop] that finds
    the position different from the last reported one sends exactly one
    arrow key, [Right] when the position is greater and [Left] when it is
    smaller, and sets the last reported position to the position, however
    many steps are pending.  So N >= 1 clockwise transitions, each
    accepted, followed by N iterations of [loop] with the link up, send
    exactly one [Right] key and no [Left] key, and leave the last
    reported position equal to the position (N is taken to fit the [int]
    that holds the position). *)
Theorem pending_steps_send_one_key
    (s : Sketch) (p : PinPair) (ts : list Z) (ticks : list LoopIn) :
  connectionState s = CONNECTED ->
  lastReportedPos s = encoderPos s ->
  old_AB s = code p ->
  spaced (lastEncoderEvent s) (clockwise_turns p ts) ->
  INT_MIN <= encoderPos s ->
  encoderPos s + Z.of_nat (length ts) <= INT_MAX ->
  (1 <= length ts)%nat ->
  length ticks = length ts ->
  Forall (fun i => link i = true) ticks ->
  let s1 := run (replay (clockwise_turns p ts)) s in
  let s2 := run (concat (map tick ticks)) s1 in
  encoderPos s1 - lastReportedPos s1 = Z.of_nat (length ts) /\
  count_key KEY_RIGHT_ARROW s2 = (count_key KEY_RIGHT_ARROW s + 1)%nat /\
  count_key KEY_LEFT_ARROW s2 = count_key KEY_LEFT_ARROW s /\
  lastReportedPos s2 = encoderPos s2 /\
  encoderPos s2 = encoderPos s + Z.of_nat (length ts) /\
  (forall (x : Sketch) (i : LoopIn),
     connectionState x = CONNECTED ->
     link i = true ->
     encoderPos x <> lastReportedPos x ->
     lastReportedPos (loop i x) = encoderPos x /\
     (count_key KEY_RIGHT_ARROW (loop i x) + count_key KEY_LEFT_ARROW (loop i x)
      = count_key KEY_RIGHT_ARROW x + count_key KEY_LEFT_ARROW x + 1)%nat /\
     (lastReportedPos x < encoderPos x ->
      count_key KEY_RIGHT_ARROW (loop i x)
      = (count_key KEY_RIGHT_ARROW x + 1)%nat) /\
     (encoderPos x < lastReportedPos x ->
      count_key KEY_LEFT_ARROW (loop i x)
      = (count_key KEY_LEFT_ARROW x + 1)%nat)).
Proof.
  intros Hc Hsync Hold Hspaced Hmin Hmax Hn Hlen Hlinks s1 s2.
  destruct (replay_frame (clockwise_turns p ts) s) as (Hh1 & Hr1 & Hc1).
  fold s1 in Hh1, Hr1, Hc1.
  assert (Hp1 : encoderPos s1 = encoderPos s + Z.of_nat (length ts)).
  { unfold s1.
    rewrite (replay_position _ p s Hold); try assumption.
    - destruct (clockwise_turns_count ts p) as (-> & ->).
      rewrite Z.sub_0_r. apply i32_id. lia.
    - split; [exact Hmin|]. lia.
    - apply clockwise_turns_legal. }
  assert (Ha1 : arrows s1 = arrows s)
    by (unfold arrows, count_key, keys_sent; rewrite Hh1; reflexivity).
  assert (General : forall (x : Sketch) (i : LoopIn),
            connectionState x = CONNECTED -> link i = true ->
            encoderPos x <> lastReportedPos x ->
            lastReportedPos (loop i x) = encoderPos x /\
            (count_key KEY_RIGHT_ARROW (loop i x)
             + count_key KEY_LEFT_ARROW (loop i x)
             = count_key KEY_RIGHT_ARROW x + count_key KEY_LEFT_ARROW x + 1)%nat /\
            (lastReportedPos x < encoderPos x ->
             count_key KEY_RIGHT_ARROW (loop i x)
             = (count_key KEY_RIGHT_ARROW x + 1)%nat) /\
            (encoderPos x < lastReportedPos x ->
             count_key KEY_LEFT_ARROW (loop i x)
             = (count_key KEY_LEFT_ARROW x + 1)%nat)).
  { intros x i Hcx Hlx Hne.
    destruct (loop_connected i x Hcx Hlx) as (_ & _ & R & A).
    apply Z.eqb_neq in Hne. rewrite Hne in A.
    split; [exact R|].
    unfold arrows in A. cbn [fst snd] in A.
    destruct (lastReportedPos x <? encoderPos x) eqn:Hlt;
      injection A as AR AL; rewrite AR, AL.
    - apply Z.ltb_lt in Hlt. repeat split; intros; lia.
    - apply Z.ltb_ge in Hlt. repeat split; intros; lia. }
  destruct ticks as [| i ticks]; [simpl in Hlen; lia|].
  inversion Hlinks as [| i' ticks' Hi Hticks]; subst i' ticks'.
  assert (Hs2 : s2 = run (concat (map tick ticks)) (loop i s1)).
  { unfold s2. cbn [map concat]. rewrite run_app, run_tick. reflexivity. }
  assert (Hcs1 : connectionState s1 = CONNECTED) by congruence.
  destruct (loop_connected i s1 Hcs1 Hi) as (C & P & R & A).
  destruct (run_ticks_synced ticks (loop i s1) C Hticks (eq_trans R (eq_sym P)))
    as (A' & P' & R').
  rewrite <- Hs2 in A', P', R'.
  assert (Hlt : lastReportedPos s1 < encoderPos s1) by lia.
  assert (Hne : (encoderPos s1 =? lastReportedPos s1) = false)
    by (apply Z.eqb_neq; lia).
  apply Z.ltb_lt in Hlt. rewrite Hne, Hlt, Ha1 in A.
  rewrite A in A'. unfold arrows in A'. cbn [fst snd] in A'.
  injection A' as AR AL.
  split; [lia|].
  split; [rewrite AR; lia|].
  split; [exact AL|].
  split; [congruence|].
  split; [congruence|].
  exact General.
Qed.

(** Three clockwise transitions, then three iterations of [loop]: one
    [Right] key. *)
Lemma pending_steps_send_one_key_witness :
  count_key KEY_RIGHT_ARROW
    (run (concat (map tick [tick_at true HIGH 35; tick_at true HIGH 40;
                            tick_at true HIGH 45]))
       (run (replay (clockwise_turns (false, false) [10; 20; 30]))
          connected_idle)) = 1%nat.
Proof.
  assert (Hspaced : spaced (lastEncoderEvent connected_idle)
                      (clockwise_turns (false, false) [10; 20; 30])).
  { simpl. repeat split; vm_compute; discriminate. }
  assert (Hmin : INT_MIN <= encoderPos connected_idle)
    by (vm_compute; discriminate).
  assert (Hmax : encoderPos connected_idle + Z.of_nat (length [10; 20; 30])
                 <= INT_MAX) by (vm_compute; discriminate).
  assert (Hn : (1 <= length [10; 20; 30])%nat) by (simpl; lia).
  assert (Hlinks : Forall (fun i => link i = true)
                     [tick_at true HIGH 35; tick_at true HIGH 40;
                      tick_at true HIGH 45]) by (repeat constructor).
  destruct (pending_steps_send_one_key connected_idle (false, false)
              [10; 20; 30]
              [tick_at true HIGH 35; tick_at true HIGH 40; tick_at true HIGH 45]
              eq_refl eq_refl eq_refl Hspaced Hmin Hmax Hn eq_refl Hlinks)
    as (_ & Hright & _).
  exact Hright.
Defined.

(** * Further properties of the single-encoder sketch *)

(** ** Invariants of the reachable states *)

(** X1: in every state the sketch can reach, [wasConnected] is set exactly
    when [connectionState] is [CONNECTED]. *)
Theorem connection_flag_tracks_state (s : Sketch) :
  reachable s ->
  (wasConnected s = true <-> connectionState s = CONNECTED) /\
  (wasConnected s = false <->
   connectionState s = DISCONNECTED \/ connectionState s = CONNECTING).
Proof.
  intros (t & acts & ->).
  assert (H0 : wasConnected (setup t power_on) = true <->
               connectionState (setup t power_on) = CONNECTED)
    by (simpl; split; discriminate).
  assert (H : wasConnected (run acts (setup t power_on)) = true <->
              connectionState (run acts (setup t power_on)) = CONNECTED).
  { revert H0. generalize (setup t power_on).
    induction acts as [| a acts IH]; intros s Hs; simpl.
    - exact Hs.
    - apply IH. apply step_consistent. exact Hs. }
  split; [exact H|].
  destruct H as [H1 H2].
  set (r := run acts (setup t power_on)) in *.
  split.
  - intros Hw. destruct (connectionState r); auto.
    rewrite (H2 eq_refl) in Hw. discriminate.
  - intros E. destruct (wasConnected r); [|reflexivity].
    rewrite (H1 eq_refl) in E. destruct E; discriminate.
Qed.

Lemma connection_flag_tracks_state_witness :
  wasConnected connected_idle = true <->
  connectionState connected_idle = CONNECTED.
Proof.
  assert (R : reachable connected_idle).
  { exists 0, (tick (tick_at true HIGH 1)). reflexivity. }
  destruct (connection_flag_tracks_state connected_idle R) as (H & _).
  exact H.
Defined.

Lemma pin_pair_range (a b : bool) : 0 <= pin_pair a b <= 3.
Proof. destruct a, b; vm_compute; split; discriminate. Qed.

Lemma step_in_range (a : Action) (s : Sketch) :
  decoder_in_range s -> decoder_in_range (step a s).
Proof.
  unfold decoder_in_range. intros (Hab & Hpos & Hrep).
  destruct a as [pa pb now | sw now | c t1 t2 | now | | sw now];
    by_cases s;
    repeat split; try apply pin_pair_range; try apply i32_range;
    try apply Hab; try apply Hpos; try apply Hrep.
Qed.

(** X2: in every reachable state the 2-bit history of the decoder is a
    pin pair (0 to 3) and both positions fit an [int]. *)
Theorem decoder_stays_in_range (s : Sketch) :
  reachable s -> decoder_in_range s.
Proof.
  intros (t & acts & ->).
  assert (H0 : decoder_in_range (setup t power_on)).
  { unfold decoder_in_range. simpl. unfold INT_MIN, INT_MAX. lia. }
  revert H0. generalize (setup t power_on).
  induction acts as [| a acts IH]; intros s Hs; simpl.
  - exact Hs.
  - apply IH. apply step_in_range. exact Hs.
Qed.

Lemma decoder_stays_in_range_witness :
  decoder_in_range (run (replay [jump_00_11; turn_00_01]) (setup 0 power_on)).
Proof.
  apply decoder_stays_in_range.
  exists 0, (replay [jump_00_11; turn_00_01]). reflexivity.
Defined.

(** ** The connection manager *)

(** X3: whenever the link reports linked, [updateConnectionState] leaves
    the state [CONNECTED], from [DISCONNECTED] and from [CONNECTING]
    alike, without touching the retry baseline or anything else than the
    state and [wasConnected]. *)
Theorem linked_means_connected (s : Sketch) (t_disc t_retry : Z) :
  reachable s ->
  let s' := updateConnectionState true t_disc t_retry s in
  connectionState s' = CONNECTED /\
  wasConnected s' = true /\
  s' = set_wasConnected true (set_connectionState CONNECTED s).
Proof.
  intros Hreach s'.
  destruct (reachable_consistent s Hreach) as (H1 & H2).
  unfold s', updateConnectionState.
  destruct s as [cs lca was ? ? ? ? ? ? ? ? ?]. fields.
  destruct was, cs; simpl; auto;
    try discriminate (H1 eq_refl); try discriminate (H2 eq_refl).
Qed.

Lemma linked_means_connected_witness :
  connectionState (updateConnectionState true 7 7 (setup 0 power_on))
  = CONNECTED.
Proof.
  assert (R : reachable (setup 0 power_on)) by (exists 0, []; reflexivity).
  destruct (linked_means_connected (setup 0 power_on) 7 7 R) as (H & _).
  exact H.
Defined.

(** With the link down, [CONNECTING] is a dead end. *)
Lemma run_connecting (acts : list Action) :
  forall s : Sketch,
    connectionState s = CONNECTING ->
    wasConnected s = false ->
    Forall link_down acts ->
    connectionState (run acts s) = CONNECTING /\
    wasConnected (run acts s) = false /\
    lastConnectionAttempt (run acts s) = lastConnectionAttempt s /\
    hid (run acts s) = hid s.
Proof.
  induction acts as [| a acts IH]; intros s Hc Hw Hall.
  - simpl. auto.
  - inversion Hall as [| a' acts' Ha Hacts]; subst a' acts'.
    cbn [run].
    assert (Hstep : connectionState (step a s) = CONNECTING /\
                    wasConnected (step a s) = false /\
                    lastConnectionAttempt (step a s) = lastConnectionAttempt s /\
                    hid (step a s) = hid s).
    { destruct a as [pa pb now | sw now | c t1 t2 | now | | sw now];
        try (match goal with
             | |- context [step ?a s] =>
                 destruct (step_keeps_connection a s
                             ltac:(intros; discriminate)) as (-> & -> & ->)
             end;
             rewrite step_suppressed by (congruence || discriminate);
             auto).
      simpl in Ha. subst c.
      unfold step, updateConnectionState. rewrite Hw. simpl.
      rewrite Hc. auto. }
    destruct Hstep as (Hc' & Hw' & Hl' & Hh').
    destruct (IH (step a s) Hc' Hw' Hacts) as (? & ? & Hl & Hh).
    repeat split; try assumption; congruence.
Qed.

(** X4: once [CONNECTING], the sketch stays [CONNECTING] for as long as
    the link reports unlinked, whatever runs and however long it lasts:
    there is no second retry and no way back to [DISCONNECTED]; the
    baseline is not touched and nothing is sent. *)
Theorem connecting_waits_for_the_link (s : Sketch) (acts : list Action) :
  reachable s ->
  connectionState s = CONNECTING ->
  Forall link_down acts ->
  connectionState (run acts s) = CONNECTING /\
  lastConnectionAttempt (run acts s) = lastConnectionAttempt s /\
  hid (run acts s) = hid s.
Proof.
  intros Hreach Hc Hall.
  assert (Hw : wasConnected s = false).
  { destruct (reachable_consistent s Hreach) as (H1 & _).
    destruct (wasConnected s); [|reflexivity].
    rewrite (H1 eq_refl) in Hc. discriminate. }
  destruct (run_connecting acts s Hc Hw Hall) as (H1 & _ & H2 & H3).
  repeat split; assumption.
Qed.

(** After [setup], ten minutes of iterations without a link. *)
Lemma connecting_waits_for_the_link_witness :
  connectionState
    (run (tick (tick_at false HIGH 5) ++ tick (tick_at false HIGH 600000))
       (setup 0 power_on)) = CONNECTING.
Proof.
  assert (R : reachable (setup 0 power_on)) by (exists 0, []; reflexivity).
  assert (Hall : Forall link_down
                   (tick (tick_at false HIGH 5)
                    ++ tick (tick_at false HIGH 600000)))
    by (repeat constructor).
  destruct (connecting_waits_for_the_link (setup 0 power_on) _ R eq_refl Hall)
    as (H & _).
  exact H.
Defined.

(** ** The interrupt handlers *)

(** X5: the interrupt handlers have no outward effect: they send no key
    and leave the LED, the connection variables, the reported position
    and [buttonEventProcessed] alone; [encoderISR] leaves the button
    variables alone and [buttonISR] the decoder variables. *)
Theorem interrupts_touch_their_own_variables
    (pinA pinB sw : bool) (now : Z) (s : Sketch) :
  let e := encoderISR pinA pinB now s in
  let b := buttonISR sw now s in
  e = set_old_AB (old_AB e)
        (set_lastEncoderEvent (lastEncoderEvent e)
           (set_encoderPos (encoderPos e) s)) /\
  b = set_buttonStateChangeTime (buttonStateChangeTime b)
        (set_buttonState (buttonState b) s).
Proof.
  split.
  - by_cases s; reflexivity.
  - by_cases s; reflexivity.
Qed.

(** ** One iteration of [loop] *)

(** X6: an iteration that finds the position equal to the reported one
    and the button [BUTTON_UP] only refreshes the connection state and
    the LED: no key is sent, and no decoder or button variable
    changes. *)
Theorem idle_iteration_is_silent (i : LoopIn) (s : Sketch) :
  encoderPos s = lastReportedPos s ->
  buttonState s = BUTTON_UP ->
  loop i s =
    updateLED (led_now i)
      (updateConnectionState (link i) (conn_t_disc i) (conn_t_retry i) s) /\
  hid (loop i s) = hid s.
Proof.
  intros Hsync Hup.
  assert (H : loop i s =
              updateLED (led_now i)
                (updateConnectionState (link i) (conn_t_disc i)
                   (conn_t_retry i) s)).
  { unfold loop.
    set (s2 := updateLED _ _).
    assert (E2 : encoderPos s2 = lastReportedPos s2 /\
                 buttonState s2 = BUTTON_UP).
    { unfold s2. clear s2. by_cases s; auto. }
    destruct E2 as (E2 & B2).
    rewrite (handleEncoderChange_idle s2 E2).
    destruct (ConnectionState_eqb (connectionState s2) CONNECTED);
      unfold handleButtonEvent; rewrite B2; reflexivity. }
  split; [exact H|].
  rewrite H. by_cases s; reflexivity.
Qed.

Lemma idle_iteration_is_silent_witness :
  hid (loop (tick_at true HIGH 50) connected_idle) = [].
Proof.
  destruct (idle_iteration_is_silent (tick_at true HIGH 50) connected_idle
              eq_refl eq_refl) as (_ & H).
  exact H.
Defined.

Lemma updateLED_shows_status (now : Z) (s : Sketch) :
  updateLED now s = set_led (status_color (connectionState s) now) s.
Proof.
  unfold updateLED, status_color.
  destruct (connectionState s); try reflexivity.
  destruct (_ =? _); reflexivity.
Qed.

(** The encoder and button statements of [loop] leave the LED as the
    connection state wants it. *)
Lemma step_restores_led (a : Action) (now : Z) (s : Sketch) :
  a = LoopEncoder \/ (exists sw t, a = LoopButton sw t) ->
  led s = status_color (connectionState s) now ->
  led (step a s) = status_color (connectionState s) now.
Proof.
  intros [-> | (sw & t & ->)] Hled;
    destruct s as [cs ? ? ? ? ? ? bs ? bp ? ?]; destruct cs;
    unfold_sketch; fields;
    change (status_color CONNECTED now) with colorConnected in *;
    try match goal with
        | |- context [status_color ?c now] =>
            generalize dependent (status_color c now); intros
        end;
    simpl; split_ifs; simpl; try assumption; try reflexivity;
    try discriminate.
Qed.

(** X7: at the end of every iteration of [loop] the LED shows the
    connection state (red, blinking orange, green) as [updateLED]
    computed it in that iteration: the activity colour set while a key is
    sent is always replaced before the function that set it returns. *)
Theorem led_shows_connection_state (i : LoopIn) (s : Sketch) :
  led (loop i s) = status_color (connectionState (loop i s)) (led_now i) /\
  led (loop i s) <> colorActivity.
Proof.
  assert (H : led (loop i s)
              = status_color (connectionState (loop i s)) (led_now i)).
  { rewrite loop_connectionState.
    rewrite <- run_tick. unfold tick. cbn [run].
    change (step (LoopConnection (link i) (conn_t_disc i) (conn_t_retry i)) s)
      with (updateConnectionState (link i) (conn_t_disc i) (conn_t_retry i) s).
    set (s1 := updateConnectionState _ _ _ s).
    set (s2 := step (LoopLed (led_now i)) s1).
    assert (C2 : connectionState s2 = connectionState s1)
      by (apply step_keeps_connection; discriminate).
    assert (L2 : led s2 = status_color (connectionState s2) (led_now i)).
    { unfold s2, step. rewrite updateLED_shows_status. reflexivity. }
    set (s3 := step LoopEncoder s2).
    assert (C3 : connectionState s3 = connectionState s2)
      by (apply step_keeps_connection; discriminate).
    assert (L3 : led s3 = status_color (connectionState s2) (led_now i))
      by (apply step_restores_led; auto).
    rewrite <- C2, <- C3.
    apply step_restores_led; [right; eauto|]. rewrite C3. exact L3. }
  split; [exact H|].
  rewrite H. unfold status_color.
  destruct (connectionState (loop i s)); try discriminate.
  destruct (_ =? _); discriminate.
Qed.

(** X8: while [CONNECTING] the LED blinks with a period of 1000 ms, half
    of it orange and half of it dark: [updateLED] shows orange exactly
    when the time is in the first 500 ms of a second, and shows the same
    colour 1000 ms later and the other one 500 ms later. *)
Theorem connecting_blinks_once_a_second (now : Z) (s : Sketch) :
  connectionState s = CONNECTING ->
  0 <= now ->
  (led (updateLED now s) = colorConnecting <-> now mod 1000 < 500) /\
  (led (updateLED now s) = Black <-> 500 <= now mod 1000) /\
  led (updateLED (now + 1000) s) = led (updateLED now s) /\
  led (updateLED (now + 500) s) <> led (updateLED now s).
Proof.
  intros Hc Hnow.
  rewrite !updateLED_shows_status, Hc. simpl.
  assert (Hq : now = 1000 * (now / 1000) + now mod 1000)
    by (apply Z.div_mod; lia).
  assert (Hr : 0 <= now mod 1000 < 1000) by (apply Z.mod_pos_bound; lia).
  set (q := now / 1000) in *. set (r := now mod 1000) in *.
  assert (Hphase : forall x, 0 <= x < 1000 ->
            ((1000 * q + x) / 500) mod 2 = if x <? 500 then 0 else 1).
  { intros x Hx. destruct (x <? 500) eqn:Hlt.
    - apply Z.ltb_lt in Hlt.
      replace (1000 * q + x) with ((2 * q) * 500 + x) by lia.
      rewrite Z.div_add_l by lia. rewrite (Z.div_small x 500) by lia.
      rewrite Z.add_0_r, Z.mul_comm, Z.mod_mul by lia. reflexivity.
    - apply Z.ltb_ge in Hlt.
      replace (1000 * q + x) with ((2 * q + 1) * 500 + (x - 500)) by lia.
      rewrite Z.div_add_l by lia. rewrite (Z.div_small (x - 500) 500) by lia.
      rewrite Z.add_0_r.
      replace (2 * q + 1) with (1 + q * 2) by lia.
      rewrite Z.mod_add by lia. reflexivity. }
  assert (H0 : (now / 500) mod 2 = if r <? 500 then 0 else 1)
    by (rewrite Hq at 1; apply Hphase; exact Hr).
  assert (H1 : ((now + 1000) / 500) mod 2 = (now / 500) mod 2).
  { replace (now + 1000) with (now + 2 * 500) by lia.
    rewrite Z.div_add by lia.
    replace (now / 500 + 2) with (now / 500 + 1 * 2) by lia.
    rewrite Z.mod_add by lia. reflexivity. }
  assert (H5 : ((now + 500) / 500) mod 2 = if r <? 500 then 1 else 0).
  { destruct (r <? 500) eqn:Hlt.
    - apply Z.ltb_lt in Hlt.
      replace (now + 500) with (1000 * q + (r + 500)) by lia.
      rewrite Hphase by lia.
      destruct (r + 500 <? 500) eqn:E; [apply Z.ltb_lt in E; lia | reflexivity].
    - apply Z.ltb_ge in Hlt.
      replace (now + 500) with (1000 * (q + 1) + (r - 500)) by lia.
      replace (1000 * (q + 1) + (r - 500))
        with ((2 * (q + 1)) * 500 + (r - 500)) by lia.
      rewrite Z.div_add_l by lia. rewrite (Z.div_small (r - 500) 500) by lia.
      rewrite Z.add_0_r, Z.mul_comm, Z.mod_mul by lia. reflexivity. }
  rewrite H1, H5, H0.
  destruct (r <? 500) eqn:Hlt; simpl.
  - apply Z.ltb_lt in Hlt.
    repeat split; intros; try reflexivity; try lia; try discriminate.
  - apply Z.ltb_ge in Hlt.
    repeat split; intros; try reflexivity; try lia; try discriminate.
Qed.

Lemma connecting_blinks_once_a_second_witness :
  led (updateLED 1250 (setup 0 power_on)) = colorConnecting /\
  led (updateLED 2250 (setup 0 power_on))
  = led (updateLED 1250 (setup 0 power_on)).
Proof.
  assert (Hnow : 0 <= 1250) by lia.
  destruct (connecting_blinks_once_a_second 1250 (setup 0 power_on)
              eq_refl Hnow) as ((_ & Horange) & _ & Hperiod & _).
  split; [apply Horange; reflexivity | exact Hperiod].
Defined.

(** X9: one iteration of [loop] sends at most one arrow key and at most
    one [Enter], the arrow first. *)
Theorem iteration_sends_arrow_then_enter (i : LoopIn) (s : Sketch) :
  exists arrow enter : list KeyCode,
    keys_sent (loop i s) = keys_sent s ++ arrow ++ enter /\
    (arrow = [] \/ arrow = [KEY_RIGHT_ARROW] \/ arrow = [KEY_LEFT_ARROW]) /\
    (enter = [] \/ enter = [KEY_RETURN]).
Proof.
  rewrite <- run_tick. unfold tick. cbn [run].
  set (s1 := step (LoopConnection _ _ _) s).
  set (s2 := step (LoopLed _) s1).
  set (s3 := step LoopEncoder s2).
  assert (K2 : keys_sent s2 = keys_sent s).
  { unfold s2, s1, keys_sent. clear. by_cases s; reflexivity. }
  assert (K3 : exists arrow, keys_sent s3 = keys_sent s2 ++ arrow /\
            (arrow = [] \/ arrow = [KEY_RIGHT_ARROW] \/ arrow = [KEY_LEFT_ARROW])).
  { unfold s3. clearbody s2. clear. unfold keys_sent.
    by_cases s2; rewrite ?map_app; simpl;
      solve [ exists []; rewrite app_nil_r; auto
            | exists [KEY_RIGHT_ARROW]; auto
            | exists [KEY_LEFT_ARROW]; auto ]. }
  destruct K3 as (arrow & K3 & Harrow).
  assert (K4 : exists enter,
            keys_sent (step (LoopButton (button_sw i) (button_now i)) s3)
            = keys_sent s3 ++ enter /\ (enter = [] \/ enter = [KEY_RETURN])).
  { clearbody s3. clear. unfold keys_sent.
    by_cases s3; rewrite ?map_app; simpl;
      solve [ exists []; rewrite app_nil_r; auto
            | exists [KEY_RETURN]; auto ]. }
  destruct K4 as (enter & K4 & Henter).
  exists arrow, enter. rewrite K4, K3, K2, app_assoc. auto.
Qed.

(** One iteration with the link up, from a reachable state. *)
Lemma loop_linked (i : LoopIn) (s : Sketch) :
  (wasConnected s = true <-> connectionState s = CONNECTED) ->
  link i = true ->
  connectionState (loop i s) = CONNECTED /\
  encoderPos (loop i s) = encoderPos s /\
  lastReportedPos (loop i s) = encoderPos s /\
  arrows (loop i s) =
    (if encoderPos s =? lastReportedPos s then arrows s
     else if lastReportedPos s <? encoderPos s
          then (S (fst (arrows s)), snd (arrows s))
          else (fst (arrows s), S (snd (arrows s)))).
Proof.
  intros Hcons Hl. rewrite <- run_tick. unfold tick. cbn [run]. rewrite Hl.
  set (s1 := step (LoopConnection true _ _) s).
  assert (C1 : connectionState s1 = CONNECTED).
  { unfold s1, step, updateConnectionState. clear s1.
    destruct Hcons as [H1 H2].
    destruct s as [cs lca was ? ? ? ? ? ? ? ? ?]. fields.
    destruct was, cs; simpl; auto;
      try discriminate (H1 eq_refl); try discriminate (H2 eq_refl). }
  assert (W1 : wasConnected s1 = true).
  { unfold s1, step, updateConnectionState. clear s1 C1.
    destruct s as [cs lca was ? ? ? ? ? ? ? ? ?]. fields.
    destruct was, cs; simpl; split_ifs; simpl; auto. }
  destruct (step_keeps_arrows (LoopConnection true (conn_t_disc i)
                                 (conn_t_retry i)) s
              ltac:(discriminate) ltac:(discriminate)) as (A1 & P1 & R1).
  fold s1 in A1, P1, R1.
  pose (j := mkLoopIn true (conn_t_disc i) (conn_t_retry i) (led_now i)
               (button_sw i) (button_now i)).
  destruct (loop_connected j s1 C1 eq_refl) as (C & P & R & A).
  assert (E : loop j s1 =
              step (LoopButton (button_sw i) (button_now i))
                (step LoopEncoder (step (LoopLed (led_now i)) s1))).
  { rewrite <- run_tick. unfold tick, j. cbn [run link conn_t_disc conn_t_retry
      led_now button_sw button_now].
    f_equal. f_equal. f_equal.
    unfold step, updateConnectionState. rewrite W1. simpl. rewrite C1.
    reflexivity. }
  rewrite <- E, C, P, R, A, A1, P1, R1. auto.
Qed.

(** X10: rotation made while the connection is not [CONNECTED] is
    neither sent nor forgotten: the reported position does not move and
    no key goes out; the first iteration that finds the link up sends one
    arrow key for the whole displacement, [Right] if the position ended
    up greater than the reported one, [Left] if smaller, none if it came
    back to it. *)
Theorem offline_rotation_is_sent_as_one_key
    (s : Sketch) (acts : list Action) (i : LoopIn) :
  reachable s ->
  connectionState s <> CONNECTED ->
  Forall link_down acts ->
  link i = true ->
  let s1 := run acts s in
  let s2 := loop i s1 in
  lastReportedPos s1 = lastReportedPos s /\
  hid s1 = hid s /\
  connectionState s2 = CONNECTED /\
  lastReportedPos s2 = encoderPos s1 /\
  arrows s2 =
    (if encoderPos s1 =? lastReportedPos s then arrows s
     else if lastReportedPos s <? encoderPos s1
          then (S (fst (arrows s)), snd (arrows s))
          else (fst (arrows s), S (snd (arrows s)))).
Proof.
  intros Hreach Hc Hdown Hl s1 s2.
  assert (R1 : reachable s1).
  { destruct Hreach as (t & pre & ->). exists t, (pre ++ acts).
    unfold s1. rewrite run_app. reflexivity. }
  pose proof (reachable_consistent s1 R1) as Hcons1.
  pose proof (reachable_consistent s Hreach) as Hcons.
  assert (Hoff : forall (l : list Action) (x : Sketch),
            connectionState x <> CONNECTED ->
            (wasConnected x = true <-> connectionState x = CONNECTED) ->
            Forall link_down l ->
            lastReportedPos (run l x) = lastReportedPos x /\
            hid (run l x) = hid x).
  { induction l as [| a l IH]; intros x Hx Hcx Hall.
    - simpl. auto.
    - inversion Hall as [| a' l' Ha Hl']; subst a' l'. cbn [run].
      assert (Hstep : connectionState (step a x) <> CONNECTED /\
                      lastReportedPos (step a x) = lastReportedPos x /\
                      hid (step a x) = hid x).
      { destruct a as [pa pb now | sw now | c t1 t2 | now | | sw now].
        - destruct (step_keeps_connection (IsrEncoder pa pb now) x
                      ltac:(discriminate)) as (-> & _).
          rewrite step_suppressed by (assumption || discriminate).
          split; [exact Hx|]. split; [|reflexivity]. by_cases x; reflexivity.
        - destruct (step_keeps_arrows (IsrButton sw now) x
                      ltac:(discriminate) ltac:(discriminate)) as (_ & _ & ->).
          destruct (step_keeps_connection (IsrButton sw now) x
                      ltac:(discriminate)) as (-> & _).
          rewrite step_suppressed by (assumption || discriminate). auto.
        - simpl in Ha. subst c.
          destruct (step_keeps_arrows (LoopConnection false t1 t2) x
                      ltac:(discriminate) ltac:(discriminate)) as (_ & _ & ->).
          change (step (LoopConnection false t1 t2) x)
            with (updateConnectionState false t1 t2 x).
          rewrite (updateConnectionState_keeps_hid false t1 t2 x).
          split; [|auto].
          unfold updateConnectionState. destruct Hcx as [H1 H2].
          destruct x as [cs lca was ? ? ? ? ? ? ? ? ?]. fields.
          destruct was, cs; simpl; split_ifs; simpl; try discriminate;
            try congruence; try discriminate (H1 eq_refl).
        - destruct (step_keeps_arrows (LoopLed now) x
                      ltac:(discriminate) ltac:(discriminate)) as (_ & _ & ->).
          destruct (step_keeps_connection (LoopLed now) x
                      ltac:(discriminate)) as (-> & _).
          rewrite step_suppressed by (assumption || discriminate). auto.
        - destruct (step_keeps_connection LoopEncoder x
                      ltac:(discriminate)) as (-> & _).
          rewrite step_suppressed by (assumption || discriminate).
          split; [exact Hx|]. split; [|reflexivity].
          unfold step. destruct (connectionState x); try reflexivity.
          congruence.
        - destruct (step_keeps_arrows (LoopButton sw now) x
                      ltac:(discriminate) ltac:(discriminate)) as (_ & _ & ->).
          destruct (step_keeps_connection (LoopButton sw now) x
                      ltac:(discriminate)) as (-> & _).
          rewrite step_suppressed by (assumption || discriminate). auto. }
      destruct Hstep as (Hx' & Hr' & Hh').
      destruct (IH (step a x) Hx' (step_consistent a x Hcx) Hl') as (-> & ->).
      auto. }
  destruct (Hoff acts s Hc Hcons Hdown) as (Hr1 & Hh1).
  fold s1 in Hr1, Hh1.
  destruct (loop_linked i s1 Hcons1 Hl) as (C & _ & R & A).
  fold s2 in C, R, A.
  assert (Ha1 : arrows s1 = arrows s)
    by (unfold arrows, count_key, keys_sent; rewrite Hh1; reflexivity).
  rewrite Hr1, Ha1 in A. auto.
Qed.

(** Waiting for the link after [setup], the encoder is turned three
    steps clockwise; the link comes up: one [Right]. *)
Lemma offline_rotation_is_sent_as_one_key_witness :
  keys_sent
    (loop (tick_at true HIGH 40)
       (run (replay (clockwise_turns (false, false) [10; 20; 30]))
          (setup 0 power_on)))
  = [KEY_RIGHT_ARROW] /\
  arrows
    (loop (tick_at true HIGH 40)
       (run (replay (clockwise_turns (false, false) [10; 20; 30]))
          (setup 0 power_on)))
  = (1%nat, 0%nat).
Proof.
  assert (R : reachable (setup 0 power_on)) by (exists 0, []; reflexivity).
  assert (Hc : connectionState (setup 0 power_on) <> CONNECTED)
    by (simpl; discriminate).
  assert (Hdown : Forall link_down
                    (replay (clockwise_turns (false, false) [10; 20; 30])))
    by (repeat constructor).
  destruct (offline_rotation_is_sent_as_one_key (setup 0 power_on) _
              (tick_at true HIGH 40) R Hc Hdown eq_refl)
    as (_ & _ & _ & _ & Harrows).
  split; [reflexivity | exact Harrows].
Defined.

(** ** The decoder between two iterations *)

(** X11: a legal step and the step straight back, both accepted, leave
    the position and the history where they were, so a shaft that
    wobbles between two iterations of [loop] sends no key. *)
Theorem back_and_forth_cancels
    (s : Sketch) (p q : PinPair) (t1 t2 : Z) (i : LoopIn) :
  old_AB s = code p ->
  adjacent p q = true ->
  INT_MIN <= encoderPos s <= INT_MAX ->
  encoderDebounceTime <= u32 (t1 - lastEncoderEvent s) ->
  encoderDebounceTime <= u32 (t2 - t1) ->
  let s' := run (replay [mkEdge q t1; mkEdge p t2]) s in
  encoderPos s' = encoderPos s /\
  old_AB s' = old_AB s /\
  (connectionState s = CONNECTED ->
   lastReportedPos s = encoderPos s ->
   link i = true ->
   arrows (loop i s') = arrows s).
Proof.
  intros Hold Hadj Hrange Hgap1 Hgap2 s'.
  assert (Hback : adjacent q p = true).
  { unfold adjacent, clockwise, counter_clockwise in *.
    rewrite orb_comm. exact Hadj. }
  assert (Hpos : encoderPos s' = encoderPos s).
  { unfold s'.
    rewrite (replay_position _ p s Hold Hrange); [| simpl; auto | simpl; auto].
    cbn [count_clockwise count_counter_clockwise pins].
    change (counter_clockwise q p) with (clockwise p q).
    change (counter_clockwise p q) with (clockwise q p).
    rewrite <- (i32_id (encoderPos s) Hrange) at 2. f_equal.
    destruct (clockwise p q), (clockwise q p); lia. }
  assert (Hab : old_AB s' = old_AB s).
  { unfold s'. cbn [replay map run step edge_action pins at_ms].
    set (s1 := encoderISR (fst q) (snd q) t1 s).
    assert (H1 : lastEncoderEvent s1 = t1 /\ old_AB s1 = code q).
    { unfold s1. rewrite (encoderISR_cases p q t1 s Hold).
      apply Z.ltb_ge in Hgap1. rewrite Hgap1.
      unfold adjacent in Hadj.
      destruct (clockwise p q); [auto|].
      simpl in Hadj. rewrite Hadj. auto. }
    destruct H1 as (L1 & A1).
    rewrite (encoderISR_cases q p t2 s1 A1), L1.
    apply Z.ltb_ge in Hgap2. rewrite Hgap2.
    destruct (clockwise q p); [symmetry; exact Hold|].
    destruct (counter_clockwise q p); symmetry; exact Hold. }
  split; [exact Hpos|]. split; [exact Hab|].
  intros Hc Hsync Hl.
  destruct (replay_frame [mkEdge q t1; mkEdge p t2] s) as (Hh & Hr & Hcs).
  fold s' in Hh, Hr, Hcs.
  destruct (loop_connected i s' (eq_trans Hcs Hc) Hl) as (_ & _ & _ & A).
  rewrite A.
  assert (E : encoderPos s' = lastReportedPos s') by congruence.
  apply Z.eqb_eq in E. rewrite E.
  unfold arrows, count_key, keys_sent. rewrite Hh. reflexivity.
Qed.

Lemma back_and_forth_cancels_witness :
  encoderPos
    (run (replay [mkEdge (false, true) 10; mkEdge (false, false) 20])
       connected_idle) = 0.
Proof.
  assert (Hrange : INT_MIN <= encoderPos connected_idle <= INT_MAX)
    by (vm_compute; split; discriminate).
  assert (Hgap1 : encoderDebounceTime
                  <= u32 (10 - lastEncoderEvent connected_idle))
    by (vm_compute; discriminate).
  assert (Hgap2 : encoderDebounceTime <= u32 (20 - 10))
    by (vm_compute; discriminate).
  destruct (back_and_forth_cancels connected_idle (false, false) (false, true)
              10 20 (tick_at true HIGH 25) eq_refl eq_refl Hrange Hgap1 Hgap2)
    as (Hpos & _).
  exact Hpos.
Defined.

(** ** Timers *)

Lemma u32_after (t d : Z) : 0 <= d < 2 ^ 32 -> u32 (u32 (t + d) - t) = d.
Proof.
  intros Hd. rewrite u32_elapsed. unfold u32. apply Z.mod_small. exact Hd.
Qed.

(** X12: the three timers compare the time elapsed since their baseline,
    computed modulo 2^32, so they keep working when [millis()] rolls
    over.  [d] milliseconds after the baseline (whatever its value): the
    decoder rejects an edge exactly when [d < 5]; a debouncing button is
    re-sampled exactly when [d > 50]; a disconnected sketch turns
    [CONNECTING] exactly when [d > 5000]. *)
Theorem timers_measure_elapsed_time
    (s : Sketch) (d : Z) (pinA pinB sw : bool) (t : Z) :
  0 <= d < 2 ^ 32 ->
  (let now := u32 (lastEncoderEvent s + d) in
   (d < encoderDebounceTime -> encoderISR pinA pinB now s = s) /\
   (encoderDebounceTime <= d ->
    old_AB (encoderISR pinA pinB now s) = pin_pair pinA pinB)) /\
  (let now := u32 (buttonStateChangeTime s + d) in
   buttonState s = BUTTON_DEBOUNCING_DOWN \/
   buttonState s = BUTTON_DEBOUNCING_UP ->
   (d <= buttonDebounceTime -> handleButtonEvent sw now s = s) /\
   (buttonDebounceTime < d ->
    buttonState (handleButtonEvent sw now s) <> buttonState s)) /\
  (let now := u32 (lastConnectionAttempt s + d) in
   connectionState s = DISCONNECTED ->
   wasConnected s = false ->
   (d <= RECONNECT_DELAY -> updateConnectionState false t now s = s) /\
   (RECONNECT_DELAY < d ->
    connectionState (updateConnectionState false t now s) = CONNECTING)).
Proof.
  intros Hd. repeat split.
  - intros Hlt. apply encoderISR_too_soon.
    rewrite (u32_after _ d Hd). exact Hlt.
  - intros Hge. unfold encoderISR. rewrite (u32_after _ d Hd).
    apply Z.ltb_ge in Hge. rewrite Hge.
    destruct (is_clockwise _ _); [reflexivity|].
    destruct (is_counter_clockwise _ _); reflexivity.
  - intros Hle. unfold handleButtonEvent. rewrite (u32_after _ d Hd).
    apply Z.ltb_ge in Hle. rewrite Hle. destruct H as [-> | ->]; reflexivity.
  - intros Hgt. unfold handleButtonEvent. rewrite (u32_after _ d Hd).
    apply Z.ltb_lt in Hgt. rewrite Hgt.
    destruct H as [E | E]; rewrite E; destruct sw; simpl; discriminate.
  - intros Hle. unfold updateConnectionState. rewrite H0. simpl.
    rewrite H, (u32_after _ d Hd).
    apply Z.ltb_ge in Hle. rewrite Hle. reflexivity.
  - intros Hgt. unfold updateConnectionState. rewrite H0. simpl.
    rewrite H, (u32_after _ d Hd).
    apply Z.ltb_lt in Hgt. rewrite Hgt. reflexivity.
Qed.

(** The last accepted edge came 2 ms before the rollover; an edge 5 ms
    later, at [millis() = 3], is not rejected. *)
Lemma timers_measure_elapsed_time_witness :
  old_AB (encoderISR false true 3
            (set_lastEncoderEvent (2 ^ 32 - 2) connected_idle)) = 1.
Proof.
  assert (Hd : 0 <= 5 < 2 ^ 32) by (split; [discriminate | reflexivity]).
  destruct (timers_measure_elapsed_time
              (set_lastEncoderEvent (2 ^ 32 - 2) connected_idle)
              5 false true HIGH 0 Hd) as ((_ & Hpass) & _).
  apply Hpass. vm_compute. discriminate.
Defined.

(** ** The button between two re-samples *)

(** X13: while the button is in a debouncing state only the button
    statement of [loop] moves it: further edges on the pin, whatever
    their level, neither change the state nor restart the debounce
    timer. *)
Theorem bounces_do_not_restart_debounce (s : Sketch) (acts : list Action) :
  buttonState s = BUTTON_DEBOUNCING_DOWN \/
  buttonState s = BUTTON_DEBOUNCING_UP ->
  Forall not_button_statement acts ->
  buttonState (run acts s) = buttonState s /\
  buttonStateChangeTime (run acts s) = buttonStateChangeTime s /\
  buttonEventProcessed (run acts s) = buttonEventProcessed s.
Proof.
  revert s. induction acts as [| a acts IH]; intros s Hb Hall.
  - simpl. auto.
  - inversion Hall as [| a' acts' Ha Hacts]; subst a' acts'. cbn [run].
    assert (Hstep : buttonState (step a s) = buttonState s /\
                    buttonStateChangeTime (step a s) = buttonStateChangeTime s /\
                    buttonEventProcessed (step a s) = buttonEventProcessed s).
    { destruct a as [pa pb now | sw now | c t1 t2 | now | | sw now];
        try contradiction;
        destruct s as [cs ? ? ? ? ? ? bs ? bp ? ?]; fields;
        destruct Hb as [-> | ->]; unfold_sketch; fields; split_ifs; auto. }
    destruct Hstep as (E1 & E2 & E3).
    destruct (IH (step a s)) as (F1 & F2 & F3);
      [rewrite E1; exact Hb | exact Hacts |].
    repeat split; congruence.
Qed.

(** A press at 100 ms bounces at 101, 102 and 103 ms: the timer still
    runs from 100 ms. *)
Lemma bounces_do_not_restart_debounce_witness :
  buttonStateChangeTime
    (run [IsrButton HIGH 101; IsrButton LOW 102; IsrButton HIGH 103]
       (step (IsrButton LOW 100) connected_idle)) = 100.
Proof.
  assert (Hall : Forall not_button_statement
                   [IsrButton HIGH 101; IsrButton LOW 102; IsrButton HIGH 103])
    by (repeat constructor).
  destruct (bounces_do_not_restart_debounce
              (step (IsrButton LOW 100) connected_idle) _
              (or_introl eq_refl) Hall) as (_ & Htime & _).
  exact Htime.
Defined.

(** X14: no press, no key: from [BUTTON_UP], as long as the interrupt
    handler never samples the pin active, the button stays [BUTTON_UP]
    and no [Enter] is sent, whatever [buttonEventProcessed] holds and
    whatever the button statement of [loop] would read on the pin. *)
Theorem no_press_no_key (s : Sketch) (acts : list Action) :
  buttonState s = BUTTON_UP ->
  Forall button_released acts ->
  buttonState (run acts s) = BUTTON_UP /\
  count_key KEY_RETURN (run acts s) = count_key KEY_RETURN s.
Proof.
  revert s. induction acts as [| a acts IH]; intros s Hb Hall.
  - simpl. auto.
  - inversion Hall as [| a' acts' Ha Hacts]; subst a' acts'. cbn [run].
    assert (Hstep : buttonState (step a s) = BUTTON_UP).
    { destruct a as [pa pb now | sw now | c t1 t2 | now | | sw now];
        simpl in Ha; subst;
        destruct s as [cs ? ? ? ? ? ? bs ? bp ? ?]; fields; subst bs;
        unfold_sketch; fields; simpl; split_ifs; reflexivity. }
    destruct (IH (step a s) Hstep Hacts) as (F1 & F2).
    split; [exact F1|]. rewrite F2, step_count_return.
    unfold finds_down_connected. destruct a; simpl; try lia.
    rewrite Hb. simpl. lia.
Qed.

(** A lost press has left [buttonEventProcessed] false; iterations of
    [loop] in [BUTTON_UP] still send nothing. *)
Lemma no_press_no_key_witness :
  count_key KEY_RETURN
    (run (tick (tick_at true LOW 300) ++ tick (tick_at true HIGH 305))
       (run short_press connected_idle)) = 0%nat.
Proof.
  assert (Hall : Forall button_released
                   (tick (tick_at true LOW 300) ++ tick (tick_at true HIGH 305)))
    by (repeat constructor).
  destruct (no_press_no_key (run short_press connected_idle) _ eq_refl Hall)
    as (_ & H).
  exact H.
Defined.

(** X15: no auto-repeat: once the key of a press has been sent, holding
    the button (the interrupt handler only ever samples the pin active)
    keeps the state [BUTTON_DOWN] and sends nothing more, however many
    iterations of [loop] go by and whatever happens to the
    connection. *)
Theorem held_button_does_not_repeat (s : Sketch) (acts : list Action) :
  buttonState s = BUTTON_DOWN ->
  buttonEventProcessed s = true ->
  Forall button_held acts ->
  buttonState (run acts s) = BUTTON_DOWN /\
  buttonEventProcessed (run acts s) = true /\
  count_key KEY_RETURN (run acts s) = count_key KEY_RETURN s.
Proof.
  revert s. induction acts as [| a acts IH]; intros s Hb Hp Hall.
  - simpl. auto.
  - inversion Hall as [| a' acts' Ha Hacts]; subst a' acts'. cbn [run].
    assert (Hstep : buttonState (step a s) = BUTTON_DOWN /\
                    buttonEventProcessed (step a s) = true).
    { destruct a as [pa pb now | sw now | c t1 t2 | now | | sw now];
        simpl in Ha; subst;
        destruct s as [cs ? ? ? ? ? ? bs ? bp ? ?]; fields; subst bs bp;
        unfold_sketch; fields; simpl; split_ifs; auto. }
    destruct Hstep as (E1 & E2).
    destruct (IH (step a s) E1 E2 Hacts) as (F1 & F2 & F3).
    repeat split; try assumption.
    rewrite F3, step_count_return, Hp, andb_false_r. lia.
Qed.

(** After the key of [long_press] has gone out at 156 ms, the button is
    held for ten more seconds. *)
Lemma held_button_does_not_repeat_witness :
  count_key KEY_RETURN
    (run (tick (tick_at true LOW 5000) ++ tick (tick_at true LOW 10000))
       (run (press_confirmed ++ tick (tick_at true LOW 156)) connected_idle))
  = 1%nat.
Proof.
  assert (Hall : Forall button_held
                   (tick (tick_at true LOW 5000) ++ tick (tick_at true LOW 10000)))
    by (repeat constructor).
  destruct (held_button_does_not_repeat
              (run (press_confirmed ++ tick (tick_at true LOW 156)) connected_idle)
              _ eq_refl eq_refl Hall) as (_ & _ & H).
  exact H.
Defined.

(** * The two-encoder sketch *)

Lemma channel_hid_app (f : Dual.KeyCode -> option KeyCode)
    (l1 l2 : list (Dual.KeyCode * ConnectionState)) :
  channel_hid f (l1 ++ l2) = channel_hid f l1 ++ channel_hid f l2.
Proof.
  induction l1 as [| [k c] l1 IH]; simpl.
  - reflexivity.
  - destruct (f k); simpl; rewrite IH; reflexivity.
Qed.

Ltac dual_fields :=
  cbn [Dual.connectionState Dual.lastConnectionAttempt Dual.wasConnected
       Dual.encoder1 Dual.encoder2 Dual.old_AB1 Dual.old_AB2 Dual.led Dual.hid
       Dual.position Dual.lastReportedPosition Dual.lastEvent Dual.buttonState
       Dual.buttonStateChangeTime Dual.buttonEventProcessed
       Dual.set_position Dual.set_lastReportedPosition Dual.set_lastEvent
       Dual.set_buttonState Dual.set_buttonStateChangeTime
       Dual.set_buttonEventProcessed
       Dual.set_connectionState Dual.set_lastConnectionAttempt
       Dual.set_wasConnected Dual.set_encoder1 Dual.set_encoder2
       Dual.set_old_AB1 Dual.set_old_AB2 Dual.set_led Dual.write
       channel1 channel2 forget_led
       connectionState lastConnectionAttempt wasConnected encoderPos
       lastReportedPos lastEncoderEvent old_AB buttonState
       buttonStateChangeTime buttonEventProcessed led hid
       set_connectionState set_lastConnectionAttempt set_wasConnected
       set_encoderPos set_lastReportedPos set_lastEncoderEvent set_old_AB
       set_buttonState set_buttonStateChangeTime set_buttonEventProcessed
       set_led write] in *.

Ltac dual_done :=
  cbv [Dual.connectionState Dual.lastConnectionAttempt Dual.wasConnected
       Dual.encoder1 Dual.encoder2 Dual.old_AB1 Dual.old_AB2 Dual.led Dual.hid
       Dual.position Dual.lastReportedPosition Dual.lastEvent Dual.buttonState
       Dual.buttonStateChangeTime Dual.buttonEventProcessed
       Dual.set_position Dual.set_lastReportedPosition Dual.set_lastEvent
       Dual.set_buttonState Dual.set_buttonStateChangeTime
       Dual.set_buttonEventProcessed
       Dual.set_connectionState Dual.set_lastConnectionAttempt
       Dual.set_wasConnected Dual.set_encoder1 Dual.set_encoder2
       Dual.set_old_AB1 Dual.set_old_AB2 Dual.set_led Dual.write
       channel1 channel2 forget_led
       connectionState lastConnectionAttempt wasConnected encoderPos
       lastReportedPos lastEncoderEvent old_AB buttonState
       buttonStateChangeTime buttonEventProcessed led hid
       set_connectionState set_lastConnectionAttempt set_wasConnected
       set_encoderPos set_lastReportedPos set_lastEncoderEvent set_old_AB
       set_buttonState set_buttonStateChangeTime set_buttonEventProcessed
       set_led write];
  rewrite ?channel_hid_app; cbn [channel_hid key1 key2];
  rewrite ?app_nil_r; reflexivity.

Ltac unfold_dual :=
  unfold Dual.step, Dual.encoder1ISR, Dual.encoder2ISR, Dual.button1ISR,
    Dual.button2ISR, Dual.updateConnectionState, Dual.updateLED,
    Dual.handleEncoder1Change, Dual.handleEncoder2Change,
    Dual.handleButton1Event, Dual.handleButton2Event in *.

Ltac dual_split_ifs :=
  repeat match goal with
    | |- context [if ?c then _ else _] => destruct c eqn:?; dual_fields
    | |- context [match ?c with DISCONNECTED => _ | _ => _ end] =>
        destruct c eqn:?; dual_fields
    | |- context [match ?c with BUTTON_UP => _ | _ => _ end] =>
        destruct c eqn:?; dual_fields
    end.

Ltac open_dual d :=
  let e1 := fresh "e1" in
  let e2 := fresh "e2" in
  destruct d as [? ? ? e1 e2 ? ? ? ?]; destruct e1, e2.

Lemma dual_run_app (xs ys : list Dual.Action) (d : Dual.Sketch) :
  Dual.run (xs ++ ys) d = Dual.run ys (Dual.run xs d).
Proof.
  revert d. induction xs as [| a xs IH]; intros d; simpl.
  - reflexivity.
  - apply IH.
Qed.

(** No function of the single-encoder sketch reads the LED. *)
Lemma step_forgets_led (a : Action) (s : Sketch) :
  forget_led (step a (forget_led s)) = forget_led (step a s).
Proof.
  destruct a as [pa pb now | sw now | c t1 t2 | now | | sw now];
    unfold forget_led; by_cases s; reflexivity.
Qed.

Lemma run_forgets_led (acts : list Action) :
  forall s : Sketch,
    forget_led (run acts (forget_led s)) = forget_led (run acts s).
Proof.
  induction acts as [| a acts IH]; intros s; cbn [run].
  - destruct s; reflexivity.
  - rewrite <- (IH (step a (forget_led s))), <- (IH (step a s)).
    rewrite step_forgets_led. reflexivity.
Qed.

(** One action, seen from the first encoder. *)
Lemma channel1_step (a : Dual.Action) (d : Dual.Sketch) :
  forget_led (channel1 (Dual.step a d))
  = forget_led (run (action1 a) (channel1 d)).
Proof.
  destruct a; open_dual d; unfold action1; cbn [run];
    unfold_dual; unfold_sketch; dual_fields; dual_split_ifs;
    dual_done.
Qed.

(** One action, seen from the second encoder. *)
Lemma channel2_step (a : Dual.Action) (d : Dual.Sketch) :
  forget_led (channel2 (Dual.step a d))
  = forget_led (run (action2 a) (channel2 d)).
Proof.
  destruct a; open_dual d; unfold action2; cbn [run];
    unfold_dual; unfold_sketch; dual_fields; dual_split_ifs;
    dual_done.
Qed.

Lemma run_same_but_led (acts : list Action) (s s' : Sketch) :
  forget_led s = forget_led s' ->
  forget_led (run acts s) = forget_led (run acts s').
Proof.
  intros E. rewrite <- (run_forgets_led acts s), <- (run_forgets_led acts s').
  rewrite E. reflexivity.
Qed.

(** X16: the first encoder of the two-encoder sketch behaves as the
    single-encoder sketch.  Any run of the two-encoder sketch, seen
    through the variables and keys of the first encoder (LED apart, which
    both encoders share), is the run of the single-encoder sketch on the
    actions that concern it: its two interrupt handlers, the connection
    and LED statements and its two statements of [loop]; the actions of
    the second encoder leave this view unchanged.  Both sketches start in
    the same state. *)
Theorem first_encoder_is_the_single_sketch
    (acts : list Dual.Action) (d : Dual.Sketch) :
  forget_led (channel1 (Dual.run acts d))
  = forget_led (run (flat_map action1 acts) (channel1 d)) /\
  (forall t : Z, channel1 (Dual.setup t Dual.power_on) = setup t power_on).
Proof.
  split; [|reflexivity].
  revert d. induction acts as [| a acts IH]; intros d.
  - reflexivity.
  - cbn [Dual.run flat_map]. rewrite run_app, IH.
    apply run_same_but_led. apply channel1_step.
Qed.

(** X17: so does the second encoder, with [Up] for [Right], [Down] for
    [Left] and [Command] for [Enter]; the actions of the first encoder
    leave its view unchanged. *)
Theorem second_encoder_is_the_single_sketch
    (acts : list Dual.Action) (d : Dual.Sketch) :
  forget_led (channel2 (Dual.run acts d))
  = forget_led (run (flat_map action2 acts) (channel2 d)) /\
  (forall t : Z, channel2 (Dual.setup t Dual.power_on) = setup t power_on).
Proof.
  split; [|reflexivity].
  revert d. induction acts as [| a acts IH]; intros d.
  - reflexivity.
  - cbn [Dual.run flat_map]. rewrite run_app, IH.
    apply run_same_but_led. apply channel2_step.
Qed.

(** The statements of [loop], run in order, are [loop]. *)
Lemma dual_run_tick (i : Dual.LoopIn) (d : Dual.Sketch) :
  Dual.run (Dual.tick i) d = Dual.loop i d.
Proof.
  unfold Dual.tick, Dual.loop. cbn [Dual.run Dual.step].
  set (d2 := Dual.updateLED _ _).
  assert (E : Dual.connectionState (Dual.handleEncoder1Change d2)
              = Dual.connectionState d2).
  { clearbody d2. open_dual d2. unfold_dual. dual_fields. dual_split_ifs;
      reflexivity. }
  destruct (ConnectionState_eqb (Dual.connectionState d2) CONNECTED) eqn:C.
  - rewrite E, C. reflexivity.
  - rewrite C. reflexivity.
Qed.

Lemma dual_step_gated (a : Dual.Action) (d : Dual.Sketch) :
  Dual.gated d -> Dual.gated (Dual.step a d).
Proof.
  unfold Dual.gated. intros Hg.
  destruct a; open_dual d; unfold_dual; dual_fields; dual_split_ifs;
    try exact Hg;
    apply Forall_app; (split; [exact Hg|]);
    repeat constructor; simpl;
    repeat match goal with
      | H : ConnectionState_eqb _ _ = true |- _ =>
          apply ConnectionState_eqb_eq in H
      | H : andb _ _ = true |- _ => apply andb_prop in H as [? ?]
      end; congruence.
Qed.

(** X18: in every state the two-encoder sketch can reach, by any
    interleaving of its four interrupt handlers and the statements of
    [loop], every key written (arrows of both encoders, [Enter] and
    [Command]) was written while [connectionState] was [CONNECTED]. *)
Theorem dual_keys_only_while_connected (d : Dual.Sketch) :
  Dual.reachable d -> Dual.gated d.
Proof.
  intros (t & acts & ->).
  assert (H0 : Dual.gated (Dual.setup t Dual.power_on)) by constructor.
  revert H0. generalize (Dual.setup t Dual.power_on).
  induction acts as [| a acts IH]; intros d Hd; simpl.
  - exact Hd.
  - apply IH. apply dual_step_gated. exact Hd.
Qed.

Lemma dual_keys_only_while_connected_witness :
  Dual.gated
    (Dual.run [Dual.IsrEncoder2 false true 10;
               Dual.LoopConnection true 20 20; Dual.LoopEncoder2]
       (Dual.setup 0 Dual.power_on)).
Proof.
  apply dual_keys_only_while_connected.
  exists 0, [Dual.IsrEncoder2 false true 10;
             Dual.LoopConnection true 20 20; Dual.LoopEncoder2].
  reflexivity.
Defined.

(** What each statement of [loop] can send. *)
Lemma dual_step_keys (a : Dual.Action) (d : Dual.Sketch) :
  exists ks : list Dual.KeyCode,
    Dual.keys_sent (Dual.step a d) = Dual.keys_sent d ++ ks /\
    match a with
    | Dual.LoopEncoder1 =>
        ks = [] \/ ks = [Dual.KEY_RIGHT_ARROW] \/ ks = [Dual.KEY_LEFT_ARROW]
    | Dual.LoopEncoder2 =>
        ks = [] \/ ks = [Dual.KEY_UP_ARROW] \/ ks = [Dual.KEY_DOWN_ARROW]
    | Dual.LoopButton1 _ _ => ks = [] \/ ks = [Dual.KEY_RETURN]
    | Dual.LoopButton2 _ _ => ks = [] \/ ks = [Dual.KEY_LEFT_GUI]
    | _ => ks = []
    end.
Proof.
  unfold Dual.keys_sent.
  destruct a; open_dual d; unfold_dual; dual_fields; dual_split_ifs;
    rewrite ?map_app; simpl;
    solve [ exists []; rewrite app_nil_r; auto
          | eexists; split; [reflexivity | auto] ].
Qed.

(** X19: one iteration of [loop] of the two-encoder sketch sends at most
    four keys, in a fixed order: the arrow of the first encoder, the
    arrow of the second, [Enter], [Command]. *)
Theorem dual_iteration_key_order (i : Dual.LoopIn) (d : Dual.Sketch) :
  exists arrow1 arrow2 enter command : list Dual.KeyCode,
    Dual.keys_sent (Dual.loop i d)
    = Dual.keys_sent d ++ arrow1 ++ arrow2 ++ enter ++ command /\
    (arrow1 = [] \/ arrow1 = [Dual.KEY_RIGHT_ARROW]
     \/ arrow1 = [Dual.KEY_LEFT_ARROW]) /\
    (arrow2 = [] \/ arrow2 = [Dual.KEY_UP_ARROW]
     \/ arrow2 = [Dual.KEY_DOWN_ARROW]) /\
    (enter = [] \/ enter = [Dual.KEY_RETURN]) /\
    (command = [] \/ command = [Dual.KEY_LEFT_GUI]).
Proof.
  rewrite <- dual_run_tick. unfold Dual.tick. cbn [Dual.run].
  set (d1 := Dual.step (Dual.LoopConnection _ _ _) d).
  set (d2 := Dual.step (Dual.LoopLed _) d1).
  set (d3 := Dual.step Dual.LoopEncoder1 d2).
  set (d4 := Dual.step Dual.LoopEncoder2 d3).
  set (d5 := Dual.step (Dual.LoopButton1 _ _) d4).
  destruct (dual_step_keys (Dual.LoopConnection (Dual.link i)
              (Dual.conn_t_disc i) (Dual.conn_t_retry i)) d) as (k1 & K1 & ->).
  destruct (dual_step_keys (Dual.LoopLed (Dual.led_now i)) d1)
    as (k2 & K2 & ->).
  destruct (dual_step_keys Dual.LoopEncoder1 d2) as (a1 & K3 & H3).
  destruct (dual_step_keys Dual.LoopEncoder2 d3) as (a2 & K4 & H4).
  destruct (dual_step_keys (Dual.LoopButton1 (Dual.button1_sw i)
              (Dual.button1_now i)) d4) as (b1 & K5 & H5).
  destruct (dual_step_keys (Dual.LoopButton2 (Dual.button2_sw i)
              (Dual.button2_now i)) d5) as (b2 & K6 & H6).
  fold d1 in K1. fold d2 in K2. fold d3 in K3. fold d4 in K4. fold d5 in K5.
  exists a1, a2, b1, b2.
  rewrite K6, K5, K4, K3, K2, K1, !app_nil_r, <- !app_assoc. auto.
Qed.

(** An iteration of [loop] with the connection up and both encoders at
    rest comes down to its two button statements. *)
Lemma dual_loop_at_rest (i : Dual.LoopIn) (d : Dual.Sketch) :
  Dual.connectionState d = CONNECTED ->
  Dual.wasConnected d = true ->
  Dual.link i = true ->
  Dual.position (Dual.encoder1 d)
    = Dual.lastReportedPosition (Dual.encoder1 d) ->
  Dual.position (Dual.encoder2 d)
    = Dual.lastReportedPosition (Dual.encoder2 d) ->
  Dual.loop i d =
  Dual.handleButton2Event (Dual.button2_sw i) (Dual.button2_now i)
    (Dual.handleButton1Event (Dual.button1_sw i) (Dual.button1_now i)
       (Dual.set_led colorConnected d)).
Proof.
  intros Hc Hw Hl Hp1 Hp2. unfold Dual.loop. rewrite Hl.
  assert (E1 : Dual.updateConnectionState true (Dual.conn_t_disc i)
                 (Dual.conn_t_retry i) d = d).
  { unfold Dual.updateConnectionState. rewrite Hw. simpl. rewrite Hc.
    reflexivity. }
  rewrite E1.
  assert (E2 : Dual.updateLED (Dual.led_now i) d
               = Dual.set_led colorConnected d).
  { unfold Dual.updateLED. rewrite Hc. reflexivity. }
  rewrite E2.
  assert (C : Dual.connectionState (Dual.set_led colorConnected d) = CONNECTED)
    by exact Hc.
  rewrite C. simpl ConnectionState_eqb. cbv iota.
  assert (E3 : Dual.handleEncoder1Change (Dual.set_led colorConnected d)
               = Dual.set_led colorConnected d).
  { unfold Dual.handleEncoder1Change. dual_fields.
    apply Z.eqb_eq in Hp1. rewrite Hp1. reflexivity. }
  rewrite E3.
  assert (E4 : Dual.handleEncoder2Change (Dual.set_led colorConnected d)
               = Dual.set_led colorConnected d).
  { unfold Dual.handleEncoder2Change. dual_fields.
    apply Z.eqb_eq in Hp2. rewrite Hp2. reflexivity. }
  rewrite E4. reflexivity.
Qed.

(** Both buttons down and held: their interrupts change nothing. *)
Lemma dual_run_held (mid : list Dual.Action) :
  forall d : Dual.Sketch,
    Dual.buttonState (Dual.encoder1 d) = BUTTON_DOWN ->
    Dual.buttonState (Dual.encoder2 d) = BUTTON_DOWN ->
    Forall samples_button_active mid ->
    Dual.run mid d = d.
Proof.
  induction mid as [| a mid IH]; intros d Hb1 Hb2 Hall.
  - reflexivity.
  - inversion Hall as [| a' mid' Ha Hmid]; subst a' mid'. cbn [Dual.run].
    assert (E : Dual.step a d = d).
    { destruct a; simpl in Ha; try contradiction; subst sw;
        unfold Dual.step, Dual.button1ISR, Dual.button2ISR;
        rewrite ?Hb1, ?Hb2; reflexivity. }
    rewrite E. apply IH; assumption.
Qed.

(** X20: with the connection up and both encoders at rest, two presses
    confirmed in the same iteration of [loop] send nothing in that
    iteration; if both buttons are still held when the next iteration
    runs (between the two iterations the only interrupts are button
    interrupts that sample the pin active), that iteration sends one key
    each, [Enter] before [Command], whichever button was pressed
    first. *)
Theorem presses_are_sent_in_scan_order
    (i j : Dual.LoopIn) (mid : list Dual.Action) (d : Dual.Sketch) :
  Dual.connectionState d = CONNECTED ->
  Dual.wasConnected d = true ->
  Dual.position (Dual.encoder1 d)
    = Dual.lastReportedPosition (Dual.encoder1 d) ->
  Dual.position (Dual.encoder2 d)
    = Dual.lastReportedPosition (Dual.encoder2 d) ->
  Dual.buttonState (Dual.encoder1 d) = BUTTON_DEBOUNCING_DOWN ->
  Dual.buttonState (Dual.encoder2 d) = BUTTON_DEBOUNCING_DOWN ->
  Dual.link i = true ->
  Dual.button1_sw i = LOW ->
  Dual.button2_sw i = LOW ->
  buttonDebounceTime
    < u32 (Dual.button1_now i - Dual.buttonStateChangeTime (Dual.encoder1 d)) ->
  buttonDebounceTime
    < u32 (Dual.button2_now i - Dual.buttonStateChangeTime (Dual.encoder2 d)) ->
  Forall samples_button_active mid ->
  Dual.link j = true ->
  Dual.keys_sent (Dual.loop i d) = Dual.keys_sent d /\
  Dual.keys_sent (Dual.loop j (Dual.run mid (Dual.loop i d)))
  = Dual.keys_sent d ++ [Dual.KEY_RETURN; Dual.KEY_LEFT_GUI].
Proof.
  intros Hc Hw Hp1 Hp2 Hb1 Hb2 Hli Hs1 Hs2 Ht1 Ht2 Hmid Hlj.
  apply Z.ltb_lt in Ht1, Ht2.
  assert (Hi : Dual.loop i d =
            Dual.set_encoder2
              (Dual.set_buttonEventProcessed false
                 (Dual.set_buttonState BUTTON_DOWN (Dual.encoder2 d)))
              (Dual.set_encoder1
                 (Dual.set_buttonEventProcessed false
                    (Dual.set_buttonState BUTTON_DOWN (Dual.encoder1 d)))
                 (Dual.set_led colorConnected d))).
  { rewrite (dual_loop_at_rest i d Hc Hw Hli Hp1 Hp2), Hs1, Hs2.
    unfold Dual.handleButton1Event. dual_fields. rewrite Hb1, Ht1.
    change (Bool.eqb LOW LOW) with true. cbv iota.
    unfold Dual.handleButton2Event. dual_fields. rewrite Hb2, Ht2.
    reflexivity. }
  rewrite Hi. split; [reflexivity|].
  rewrite (dual_run_held mid); [| reflexivity | reflexivity | exact Hmid].
  rewrite dual_loop_at_rest; try assumption.
  clear Hi Ht1 Ht2 Hb1 Hb2 Hp1 Hp2 Hw.
  open_dual d. dual_fields. subst.
  unfold Dual.handleButton1Event, Dual.handleButton2Event, Dual.keys_sent.
  simpl. rewrite !map_app, <- app_assoc. reflexivity.
Qed.

(** Button 2 is pressed at 100 ms and button 1 at 120 ms; both are
    confirmed by the iteration at 175 ms; a bounce of button 1 is seen at
    176 ms with the pin active; the iteration at 180 ms sends [Enter]
    first. *)
Lemma presses_are_sent_in_scan_order_witness :
  Dual.keys_sent
    (Dual.loop (Dual.mkLoopIn true 180 180 180 LOW 180 LOW 180)
       (Dual.run [Dual.IsrButton1 LOW 176]
          (Dual.loop (Dual.mkLoopIn true 175 175 175 LOW 175 LOW 175)
             two_buttons_pressed)))
  = [Dual.KEY_RETURN; Dual.KEY_LEFT_GUI].
Proof.
  assert (Ht1 : buttonDebounceTime
                < u32 (175 - Dual.buttonStateChangeTime
                               (Dual.encoder1 two_buttons_pressed)))
    by reflexivity.
  assert (Ht2 : buttonDebounceTime
                < u32 (175 - Dual.buttonStateChangeTime
                               (Dual.encoder2 two_buttons_pressed)))
    by reflexivity.
  assert (Hmid : Forall samples_button_active [Dual.IsrButton1 LOW 176])
    by (repeat constructor).
  destruct (presses_are_sent_in_scan_order
              (Dual.mkLoopIn true 175 175 175 LOW 175 LOW 175)
              (Dual.mkLoopIn true 180 180 180 LOW 180 LOW 180)
              [Dual.IsrButton1 LOW 176]
              two_buttons_pressed
              eq_refl eq_refl eq_refl eq_refl eq_refl eq_refl
              eq_refl eq_refl eq_refl Ht1 Ht2 Hmid eq_refl) as (_ & H).
  exact H.
Defined.

(** The encoder and button statements of [loop] leave the LED as the
    connection state wants it, and the connection state as it is. *)
Lemma dual_step_restores_led (a : Dual.Action) (now : Z) (d : Dual.Sketch) :
  match a with
  | Dual.LoopEncoder1 | Dual.LoopEncoder2
  | Dual.LoopButton1 _ _ | Dual.LoopButton2 _ _ => True
  | _ => False
  end ->
  Dual.led d = status_color (Dual.connectionState d) now ->
  Dual.led (Dual.step a d) = status_color (Dual.connectionState d) now /\
  Dual.connectionState (Dual.step a d) = Dual.connectionState d.
Proof.
  intros Ha Hled.
  destruct a; try contradiction;
    destruct d as [cs ? ? e1 e2 ? ? ? ?]; destruct e1, e2, cs;
    unfold_dual; dual_fields;
    change (status_color CONNECTED now) with colorConnected in *;
    try match goal with
        | |- context [status_color ?c now] =>
            generalize dependent (status_color c now); intros
        end;
    simpl; dual_split_ifs; simpl; split; try assumption; try reflexivity;
    try discriminate.
Qed.

(** X21: at the end of every iteration of [loop] of the two-encoder
    sketch the one LED shows the connection state, as [updateLED]
    computed it in that iteration, whichever encoders and buttons sent a
    key; it is never left on the activity colour. *)
Theorem dual_led_shows_connection_state (i : Dual.LoopIn) (d : Dual.Sketch) :
  Dual.led (Dual.loop i d)
  = status_color (Dual.connectionState (Dual.loop i d)) (Dual.led_now i) /\
  Dual.led (Dual.loop i d) <> colorActivity.
Proof.
  assert (H : Dual.led (Dual.loop i d)
              = status_color (Dual.connectionState (Dual.loop i d))
                  (Dual.led_now i)).
  { rewrite <- dual_run_tick. unfold Dual.tick. cbn [Dual.run].
    set (d1 := Dual.step (Dual.LoopConnection _ _ _) d).
    set (d2 := Dual.step (Dual.LoopLed _) d1).
    assert (L2 : Dual.led d2
                 = status_color (Dual.connectionState d2) (Dual.led_now i)).
    { unfold d2. clearbody d1. clear.
      destruct d1 as [cs ? ? ? ? ? ? ? ?]; destruct cs;
        unfold Dual.step, Dual.updateLED, status_color; dual_fields;
        try reflexivity.
      destruct (_ =? _); reflexivity. }
    clearbody d2.
    destruct (dual_step_restores_led Dual.LoopEncoder1 _ d2 I L2) as (L3 & C3).
    rewrite <- C3 in L3.
    destruct (dual_step_restores_led Dual.LoopEncoder2 _ _ I L3) as (L4 & C4).
    rewrite <- C4 in L4.
    destruct (dual_step_restores_led
                (Dual.LoopButton1 (Dual.button1_sw i) (Dual.button1_now i))
                _ _ I L4) as (L5 & C5).
    rewrite <- C5 in L5.
    destruct (dual_step_restores_led
                (Dual.LoopButton2 (Dual.button2_sw i) (Dual.button2_now i))
                _ _ I L5) as (L6 & C6).
    rewrite <- C6 in L6. exact L6. }
  split; [exact H|].
  rewrite H. unfold status_color.
  destruct (Dual.connectionState (Dual.loop i d)); try discriminate.
  destruct (_ =? _); discriminate.
Qed.
